(** * S3GlobReaderDataConnector: listing, partitioning and batch descriptors

    A shallow embedding of
    [great_expectations/execution_environment/data_connector/s3_data_connector.py].

    Python dictionaries are finite maps ([gmap]); dictionaries that the code
    shares and mutates in place (the connector's [reader_options]) live in a
    heap of dict objects and are passed around by reference.  The S3 client,
    the regular-expression engine, the clock and the execution engine are
    collaborators of the class: they appear as the responses they give, and
    so does the one method of the base class that the class calls.  The
    [batch_parameters] dict of a request is passed by value and handed back
    as the call leaves it. *)

From Stdlib Require Import ZArith String List Bool Lia.
From stdpp Require Import base option gmap strings list fin_maps.

Local Open Scope string_scope.
Local Open Scope list_scope.
Local Open Scope Z_scope.

(** ** Python values *)

(** Objects of type [dict] have identity: a [VRef] is a reference to one. *)
Definition loc := positive.

Inductive pyval :=
  | VNone
  | VBool (b : bool)
  | VInt (z : Z)
  | VStr (s : string)
  | VRef (l : loc).

#[global] Instance pyval_eq_dec : EqDecision pyval.
Proof. solve_decision. Defined.

(** [bool(v)] for the scalar values the connector tests. *)
Definition truthy (v : pyval) : bool :=
  match v with
  | VNone => false
  | VBool b => b
  | VInt z => negb (z =? 0)
  | VStr s => negb (String.eqb s "")
  | VRef _ => true
  end.

Abbreviation pydict := (gmap string pyval).
Abbreviation heap := (gmap loc pydict).

(** The dict object a reference points to. *)
Definition deref (h : heap) (l : loc) : pydict := default ∅ (h !! l).

(** [d.update(other)]: the keys of [other] replace those of [d]. *)
Definition dict_update (d other : pydict) : pydict := other ∪ d.

(** ** Strings *)

(** [s[n:]] *)
Fixpoint slice_from (n : nat) (s : string) : string :=
  match n, s with
  | O, _ => s
  | S n', String _ s' => slice_from n' s'
  | S _, EmptyString => EmptyString
  end.

(** [s.startswith(p)] *)
Definition startswith (s p : string) : bool := String.prefix p s.

(** ** Asset configuration

    An asset configuration is a dict read with [in] and [.get]; a field is
    [None] when the key is absent. *)
Module AssetConfig.
Record t := {
  prefix : option string;
  delimiter : option string;
  regex_filter : option string;
  partition_regex : option string;
  match_group_id : option Z;
  directory_assets : option bool;
  max_keys : option Z;
  reader_method : option string;
  reader_options : option pydict
}.
End AssetConfig.

(** [d.get(k, dflt)] on an optional field. *)
Definition get {A} (field : option A) (dflt : A) : A := default dflt field.

(** ** Regular expressions

    A match object is the list of its groups, group 0 first; a group that
    did not take part in the match is [None]. *)
Abbreviation match_object := (list (option string)).

(** [m.group(i)] for an integer [i]: [IndexError] is [None]. *)
Definition group (m : match_object) (i : Z) : option pyval :=
  if (i <? 0) then None
  else match m !! Z.to_nat i with
       | Some (Some txt) => Some (VStr txt)
       | Some None => Some VNone
       | None => None
       end.

Section Partitioner.

(** [re.match(pattern, string)] *)
Variable re_match : string -> string -> option match_object.

(** [now] is the reading
    [datetime.datetime.now(datetime.timezone.utc).strftime("%Y%m%dT%H%M%S.%fZ")]
    taken by the call. *)
Definition _partitioner (now : string) (key : string) (asset_config : AssetConfig.t)
  : pyval :=
  match AssetConfig.partition_regex asset_config with
  | Some pattern =>
      let match_group_id := get (AssetConfig.match_group_id asset_config) 1 in
      match re_match pattern key with
      | None => VStr (now +:+ "__unmatched")
      | Some matches =>
          match group matches match_group_id with
          | Some v => v
          | None => VStr (now +:+ "__no_match_group")
          end
      end
  | None =>
      let prefix := get (AssetConfig.prefix asset_config) "" in
      if startswith key prefix
      then VStr (slice_from (String.length prefix) key)
      else VStr key
  end.

End Partitioner.

(** ** Listing entries and requests *)

Record s3_object := { Key : string; Size : Z }.

Record common_prefix := { item_Prefix : string }.

(** The [batch_parameters] dict of a request; an absent key is [None]
    ([VNone] for [limit]: the key is left out rather than given as
    [None]). *)
Module BatchParameters.
Record t := {
  data_asset_name : option string;
  partition_id : option string;
  reader_method : option string;
  reader_options : option pydict;
  limit : pyval
}.
End BatchParameters.

(** ** Exceptions *)

(** The second argument of [BatchKwargsError]: the dict built at each
    [raise]. *)
Inductive error_context :=
  | ctx_directory (asset_configuration : AssetConfig.t)
                  (contents : option (list s3_object))
  | ctx_files (asset_configuration : AssetConfig.t)
              (common_prefixes : option (list common_prefix))
  | ctx_parameters (batch_parameters : BatchParameters.t)
  | ctx_dict (d : gmap string string).

Inductive exn :=
  | BatchKwargsError (message : string) (batch_kwargs : error_context)
  | GreatExpectationsError (message : string)
  | KeyError (key : string)
  | AttributeError (message : string)
  | ClientError
  | TypeError.

(** ** The listing call *)

(** The keyword arguments of [list_objects_v2]. *)
Record query_options := {
  Bucket : string;
  Delimiter : string;
  Prefix : option string;
  MaxKeys : Z;
  ContinuationToken : option string
}.

(** The part of the response the connector reads; an absent key is [None]. *)
Record list_objects_v2_response := {
  CommonPrefixes : option (list common_prefix);
  Contents : option (list s3_object);
  IsTruncated : bool;
  NextContinuationToken : option string
}.

(** The client, seen from the connector: the responses it will give to the
    next calls, in call order (a call raises once there is none left), and
    the calls it has received with what it answered, most recent first. *)
Record s3_client := {
  pending : list list_objects_v2_response;
  calls : list (query_options * option list_objects_v2_response)
}.

(** ** The connector

    The attributes of an instance; [batch_kwargs_attr] is the attribute
    [self.batch_kwargs], [None] until it is first assigned.  The dict
    [_reader_options] is held by reference; the dicts of [_iterators] are
    only reached through the connector and are held by value. *)

Record S3GlobReaderDataConnector := {
  _bucket : string;
  _reader_method : option string;
  _reader_options : loc;
  _assets : gmap string AssetConfig.t;
  _delimiter : string;
  _max_keys : Z;
  _iterators : gmap string (gmap string string);
  batch_kwargs_attr : option pydict
}.

Definition token_key : string := "continuation_token".

(** A generator object made by [_get_asset_options]: not yet started (or
    about to run the recursive call), suspended at [yield key] with the keys
    of the page still to come, or finished. *)
Inductive generator :=
  | Created
  | Suspended (asset_options : list_objects_v2_response) (rest : list string)
  | Finished.

(** What [next(g)] does to its caller. *)
Inductive signal :=
  | Yield (key : string)
  | StopIteration
  | Raise (e : exn).

Section Listing.

Variable re_match : string -> string -> option match_object.
Variable self : S3GlobReaderDataConnector.
Variable asset_config : AssetConfig.t.

Definition build_query_options (iterator_dict : gmap string string)
  : query_options :=
  {| Bucket := _bucket self;
     Delimiter := get (AssetConfig.delimiter asset_config) (_delimiter self);
     Prefix := AssetConfig.prefix asset_config;
     MaxKeys := get (AssetConfig.max_keys asset_config) (_max_keys self);
     ContinuationToken := iterator_dict !! token_key |}.

(** The keys read from one response, before the regex filter. *)
Definition listed_keys (asset_options : list_objects_v2_response)
  : exn + list string :=
  if get (AssetConfig.directory_assets asset_config) false then
    match CommonPrefixes asset_options with
    | None =>
        inl (BatchKwargsError
               ("Unable to build batch_kwargs. The asset may not be configured correctly. If directory assets "
                +:+ "are requested, then common prefixes must be returned.")
               (ctx_directory asset_config (Contents asset_options)))
    | Some items => inr (item_Prefix <$> items)
    end
  else
    match Contents asset_options with
    | None =>
        inl (BatchKwargsError
               ("Unable to build batch_kwargs. The asset may not be configured correctly. If s3 returned common "
                +:+ "prefixes it may not have been able to identify desired keys, and they are included in the "
                +:+ "incomplete batch_kwargs object returned with this error.")
               (ctx_files asset_config (CommonPrefixes asset_options)))
    | Some items => inr (Key <$> filter (λ item, 0 < Size item) items)
    end.

Definition regex_keeps (x : string) : Prop :=
  is_Some (re_match (get (AssetConfig.regex_filter asset_config) ".*") x).

#[global] Instance regex_keeps_dec x : Decision (regex_keeps x).
Proof. unfold regex_keeps. apply _. Defined.

(** The list [keys] the generator yields from one response. *)
Definition surviving_keys (asset_options : list_objects_v2_response)
  : exn + list string :=
  match listed_keys asset_options with
  | inl e => inl e
  | inr keys => inr (filter regex_keeps keys)
  end.

(** The statements after the [yield] loop: [inr (true, d)] when the
    generator goes on with the recursive call. *)
Definition after_keys (asset_options : list_objects_v2_response)
    (iterator_dict : gmap string string)
  : exn + (bool * gmap string string) :=
  if IsTruncated asset_options then
    match NextContinuationToken asset_options with
    | None => inl (KeyError "NextContinuationToken")
    | Some t => inr (true, <[token_key := t]> iterator_dict)
    end
  else inr (false, delete token_key iterator_dict).

(** *** The generator, one [next()] at a time *)

(** Running the body of [_get_asset_options] from its first statement up
    to the next [yield], [return] or [raise]. *)
Fixpoint enter (responses : list list_objects_v2_response)
    (iterator_dict : gmap string string)
    (log : list (query_options * option list_objects_v2_response))
  : signal * generator * gmap string string * s3_client :=
  let query := build_query_options iterator_dict in
  match responses with
  | [] =>
      (Raise ClientError, Finished, iterator_dict,
       {| pending := []; calls := (query, None) :: log |})
  | asset_options :: responses' =>
      let log' := (query, Some asset_options) :: log in
      match surviving_keys asset_options with
      | inl e =>
          (Raise e, Finished, iterator_dict,
           {| pending := responses'; calls := log' |})
      | inr (key :: rest) =>
          (Yield key, Suspended asset_options rest, iterator_dict,
           {| pending := responses'; calls := log' |})
      | inr [] =>
          match after_keys asset_options iterator_dict with
          | inl e =>
              (Raise e, Finished, iterator_dict,
               {| pending := responses'; calls := log' |})
          | inr (true, iterator_dict') =>
              enter responses' iterator_dict' log'
          | inr (false, iterator_dict') =>
              (StopIteration, Finished, iterator_dict',
               {| pending := responses'; calls := log' |})
          end
      end
  end.

(** [next(g)] for a generator [g = self._get_asset_options(asset_config,
    iterator_dict)]. *)
Definition _get_asset_options_next (g : generator)
    (iterator_dict : gmap string string) (s3 : s3_client)
  : signal * generator * gmap string string * s3_client :=
  match g with
  | Created => enter (pending s3) iterator_dict (calls s3)
  | Suspended asset_options (key :: rest) =>
      (Yield key, Suspended asset_options rest, iterator_dict, s3)
  | Suspended asset_options [] =>
      match after_keys asset_options iterator_dict with
      | inl e => (Raise e, Finished, iterator_dict, s3)
      | inr (true, iterator_dict') =>
          enter (pending s3) iterator_dict' (calls s3)
      | inr (false, iterator_dict') =>
          (StopIteration, Finished, iterator_dict', s3)
      end
  | Finished => (StopIteration, Finished, iterator_dict, s3)
  end.

End Listing.

(** *** The generator under a [for] loop *)

Section ForLoop.

Variable re_match : string -> string -> option match_object.
Variable self : S3GlobReaderDataConnector.
Variable asset_config : AssetConfig.t.

(** The loop body: it works on a state [A] and may raise. *)
Context {A : Type}.
Variable body : string -> A -> option exn * A.

Fixpoint for_keys (keys : list string) (acc : A) : option exn * A :=
  match keys with
  | [] => (None, acc)
  | key :: rest =>
      match body key acc with
      | (Some e, acc') => (Some e, acc')
      | (None, acc') => for_keys rest acc'
      end
  end.

(** [for key in self._get_asset_options(asset_config, iterator_dict): body]
    run to its end: the exception that left the loop, if any, and the
    states it leaves behind. *)
Fixpoint for_get_asset_options (responses : list list_objects_v2_response)
    (iterator_dict : gmap string string)
    (log : list (query_options * option list_objects_v2_response))
    (acc : A)
  : option exn * A * gmap string string * s3_client :=
  let query := build_query_options self asset_config iterator_dict in
  match responses with
  | [] =>
      (Some ClientError, acc, iterator_dict,
       {| pending := []; calls := (query, None) :: log |})
  | asset_options :: responses' =>
      let s3' := {| pending := responses';
                    calls := (query, Some asset_options) :: log |} in
      match surviving_keys re_match asset_config asset_options with
      | inl e => (Some e, acc, iterator_dict, s3')
      | inr keys =>
          match for_keys keys acc with
          | (Some e, acc') => (Some e, acc', iterator_dict, s3')
          | (None, acc') =>
              match after_keys asset_options iterator_dict with
              | inl e => (Some e, acc', iterator_dict, s3')
              | inr (true, iterator_dict') =>
                  for_get_asset_options responses' iterator_dict'
                    (calls s3') acc'
              | inr (false, iterator_dict') =>
                  (None, acc', iterator_dict', s3')
              end
          end
      end
  end.

(** The same loop driven by [next()], at most [fuel] times. *)
Fixpoint for_next (fuel : nat) (g : generator)
    (iterator_dict : gmap string string) (s3 : s3_client) (acc : A)
  : option (option exn * A * gmap string string * s3_client) :=
  match fuel with
  | O => None
  | S fuel' =>
      match _get_asset_options_next re_match self asset_config g
              iterator_dict s3 with
      | (Yield key, g', iterator_dict', s3') =>
          match body key acc with
          | (Some e, acc') => Some (Some e, acc', iterator_dict', s3')
          | (None, acc') => for_next fuel' g' iterator_dict' s3' acc'
          end
      | (StopIteration, _, iterator_dict', s3') =>
          Some (None, acc, iterator_dict', s3')
      | (Raise e, _, iterator_dict', s3') =>
          Some (Some e, acc, iterator_dict', s3')
      end
  end.

End ForLoop.

(** [list(self._get_asset_options(asset_config, iterator_dict))] *)
Definition collect (key : string) (acc : list string) : option exn * list string :=
  (None, acc ++ [key]).

(** ** Batch descriptors *)

(** Modelled from the spec: [S3BatchKwargs], declared with the other batch
    kwargs types in [great_expectations/execution_environment/types], is not
    part of this file.  The spec gives a batch descriptor as the mapping
    itself; the constructor keeps the entries of the dict it is given, a
    reference staying a reference. *)
Definition S3BatchKwargs (d : pydict) : pydict := d.

Definition _build_batch_kwargs_from_key (self : S3GlobReaderDataConnector)
    (h : heap) (key : string) (asset_config : AssetConfig.t)
    (reader_method : option string) (reader_options : option pydict)
    (limit : pyval) : pydict * heap :=
  let r := _reader_options self in
  let batch_kwargs : pydict :=
    <["reader_options" := VRef r]>
      {["s3" := VStr ("s3a://" +:+ _bucket self +:+ "/" +:+ key)]} in
  let h :=
    match AssetConfig.reader_options asset_config with
    | Some d =>
        if decide (d = ∅) then h else <[r := dict_update (deref h r) d]> h
    | None => h
    end in
  let h :=
    match reader_options with
    | Some d => <[r := dict_update (deref h r) d]> h
    | None => h
    end in
  let batch_kwargs :=
    match _reader_method self with
    | Some m => <["reader_method" := VStr m]> batch_kwargs
    | None => batch_kwargs
    end in
  let batch_kwargs :=
    match AssetConfig.reader_method asset_config with
    | Some m =>
        if truthy (VStr m) then <["reader_method" := VStr m]> batch_kwargs
        else batch_kwargs
    | None => batch_kwargs
    end in
  let batch_kwargs :=
    match reader_method with
    | Some m => <["reader_method" := VStr m]> batch_kwargs
    | None => batch_kwargs
    end in
  let batch_kwargs :=
    if truthy limit then <["limit" := limit]> batch_kwargs else batch_kwargs in
  (S3BatchKwargs batch_kwargs, h).

(** ** The facade *)

(** What [_build_batch_kwargs] hands back: the descriptor it built, or what
    [self.yield_batch_kwargs] returned. *)
Inductive build_result :=
  | Descriptor (batch_kwargs : pydict)
  | Yielded (batch_kwargs : pydict).

(** [batch_parameters] once [pop("data_asset_name")] and
    [pop("partition_id", None)] have run on it: the dict is the caller's, and
    the caller sees it without the two keys. *)
Definition popped (batch_parameters : BatchParameters.t) : BatchParameters.t :=
  {| BatchParameters.data_asset_name := None;
     BatchParameters.partition_id := None;
     BatchParameters.reader_method :=
       BatchParameters.reader_method batch_parameters;
     BatchParameters.reader_options :=
       BatchParameters.reader_options batch_parameters;
     BatchParameters.limit := BatchParameters.limit batch_parameters |}.

(** The keys of [batch_parameters], which [**batch_parameters] turns into
    keyword arguments. *)
Definition keywords (batch_parameters : BatchParameters.t) : gset string :=
  (match BatchParameters.data_asset_name batch_parameters with
   | Some _ => {["data_asset_name"]} | None => ∅ end)
  ∪ (match BatchParameters.partition_id batch_parameters with
     | Some _ => {["partition_id"]} | None => ∅ end)
  ∪ (match BatchParameters.reader_method batch_parameters with
     | Some _ => {["reader_method"]} | None => ∅ end)
  ∪ (match BatchParameters.reader_options batch_parameters with
     | Some _ => {["reader_options"]} | None => ∅ end)
  ∪ (match BatchParameters.limit batch_parameters with
     | VNone => ∅ | _ => {["limit"]} end).

(** A method that the class inherits from [DataConnector]: from its keyword
    arguments ([data_asset_name], the entries of a [batch_parameters] and
    those of a [batch_kwargs]) and the objects it can reach, to what it
    returns or raises and what it leaves of them. *)
Abbreviation inherited_method :=
  (S3GlobReaderDataConnector -> string -> BatchParameters.t -> pydict ->
   heap -> s3_client ->
   (exn + pydict) * S3GlobReaderDataConnector * heap * s3_client).

(** [self._iterators[name] = d] *)
Definition set_iterator (self : S3GlobReaderDataConnector) (name : string)
    (d : gmap string string) : S3GlobReaderDataConnector :=
  {| _bucket := _bucket self;
     _reader_method := _reader_method self;
     _reader_options := _reader_options self;
     _assets := _assets self;
     _delimiter := _delimiter self;
     _max_keys := _max_keys self;
     _iterators := <[name := d]> (_iterators self);
     batch_kwargs_attr := batch_kwargs_attr self |}.

(** [self.batch_kwargs = bk] *)
Definition set_batch_kwargs (self : S3GlobReaderDataConnector) (bk : pydict)
  : S3GlobReaderDataConnector :=
  {| _bucket := _bucket self;
     _reader_method := _reader_method self;
     _reader_options := _reader_options self;
     _assets := _assets self;
     _delimiter := _delimiter self;
     _max_keys := _max_keys self;
     _iterators := _iterators self;
     batch_kwargs_attr := Some bk |}.

Section Facade.

Variable re_match : string -> string -> option match_object.

(** [clock n] is the timestamp read by the [n]-th call of [_partitioner]
    in a scan, should it read the clock. *)
Variable clock : nat -> string.

(** [self._execution_environment.execution_engine.process_batch_definition]:
    the value it returns for its keyword arguments ([None] is Python's
    [None]). *)
Variable process_batch_definition :
  option string -> pydict -> pyval -> option pydict.

(** [self.yield_batch_kwargs], defined by the base class [DataConnector]. *)
Variable yield_batch_kwargs : inherited_method.

(** The body of the loop of [_build_asset_iterator]; the descriptors
    yielded so far are the second component of the state. *)
Definition yield_built (self : S3GlobReaderDataConnector)
    (asset_config : AssetConfig.t) (reader_options : option pydict)
    (limit : pyval) (key : string) (acc : heap * list pydict)
  : option exn * (heap * list pydict) :=
  let '(bk, h') :=
    _build_batch_kwargs_from_key self acc.1 key asset_config None
      reader_options limit in
  (None, (h', acc.2 ++ [bk])).

(** [list(self._build_asset_iterator(...))] *)
Definition _build_asset_iterator (self : S3GlobReaderDataConnector)
    (asset_config : AssetConfig.t) (iterator_dict : gmap string string)
    (reader_method : option string) (reader_options : option pydict)
    (limit : pyval) (h : heap) (s3 : s3_client)
  : option exn * (heap * list pydict) * gmap string string * s3_client :=
  for_get_asset_options re_match self asset_config
    (yield_built self asset_config reader_options limit)
    (pending s3) iterator_dict (calls s3) (h, []).

(** [list(self._get_iterator(...))] *)
Definition _get_iterator (self : S3GlobReaderDataConnector)
    (data_asset_name : string) (reader_method : option string)
    (reader_options : option pydict) (limit : pyval)
    (h : heap) (s3 : s3_client)
  : option exn * list pydict * S3GlobReaderDataConnector * heap * s3_client :=
  match _assets self !! data_asset_name with
  | None =>
      (Some (BatchKwargsError ("Unknown asset_name " +:+ data_asset_name)
               (ctx_parameters
                  {| BatchParameters.data_asset_name := Some data_asset_name;
                     BatchParameters.partition_id := None;
                     BatchParameters.reader_method := reader_method;
                     BatchParameters.reader_options := reader_options;
                     BatchParameters.limit := limit |})),
       [], self, h, s3)
  | Some asset_config =>
      let iterator_dict := default ∅ (_iterators self !! data_asset_name) in
      let '(e, (h', out), iterator_dict', s3') :=
        _build_asset_iterator self asset_config iterator_dict reader_method
          reader_options limit h s3 in
      (e, out, set_iterator self data_asset_name iterator_dict', h', s3')
  end.

(** The state of the scan of [_build_batch_kwargs]: the heap, the variable
    [batch_kwargs] and the number of keys seen. *)
Definition scan_state : Type := heap * option pydict * nat.

(** The body of the loop of [_build_batch_kwargs]. *)
Definition scan_body (self : S3GlobReaderDataConnector)
    (asset_config : AssetConfig.t) (partition_id : string)
    (reader_options : option pydict) (key : string) (acc : scan_state)
  : option exn * scan_state :=
  let '(h, batch_kwargs, n) := acc in
  if decide (_partitioner re_match (clock n) key asset_config
             = VStr partition_id)
  then
    match batch_kwargs with
    | None =>
        (Some (AttributeError "'NoneType' object has no attribute 'get'"),
         (h, batch_kwargs, S n))
    | Some d =>
        let '(bk, h') :=
          _build_batch_kwargs_from_key self h key asset_config None
            reader_options (default VNone (d !! "limit")) in
        (None, (h', Some bk, S n))
    end
  else (None, (h, batch_kwargs, S n)).

(** The call of the engine at the head of [_build_batch_kwargs]. *)
Definition processed_batch_definition (self : S3GlobReaderDataConnector)
    (batch_parameters : BatchParameters.t) (h : heap) : option pydict :=
  process_batch_definition
    (match BatchParameters.reader_method batch_parameters with
     | Some m => if truthy (VStr m) then Some m else _reader_method self
     | None => _reader_method self
     end)
    (match BatchParameters.reader_options batch_parameters with
     | Some d =>
         if decide (d = ∅) then deref h (_reader_options self) else d
     | None => deref h (_reader_options self)
     end)
    (BatchParameters.limit batch_parameters).

(** The [else] branch of [_build_batch_kwargs]:
    [self.yield_batch_kwargs(data_asset_name=data_asset_name,
    **batch_parameters, **batch_kwargs)].  The call raises [TypeError] before
    the method is entered when [batch_kwargs] is [None], which is no mapping,
    and when a keyword is given twice. *)
Definition call_yield_batch_kwargs (self : S3GlobReaderDataConnector)
    (data_asset_name : string) (batch_parameters : BatchParameters.t)
    (batch_kwargs : option pydict) (h : heap) (s3 : s3_client)
  : (exn + build_result) * S3GlobReaderDataConnector * heap * s3_client :=
  match batch_kwargs with
  | None => (inl TypeError, self, h, s3)
  | Some batch_kwargs =>
      if decide (({["data_asset_name"]} ∪ keywords batch_parameters)
                 ∩ dom batch_kwargs = ∅)
      then
        let '(r, self', h', s3') :=
          yield_batch_kwargs self data_asset_name batch_parameters
            batch_kwargs h s3 in
        (match r with inl e => inl e | inr bk => inr (Yielded bk) end,
         self', h', s3')
      else (inl TypeError, self, h, s3)
  end.

(** [_build_batch_kwargs]; the last component is the caller's
    [batch_parameters] dict as the call leaves it. *)
Definition _build_batch_kwargs (self : S3GlobReaderDataConnector)
    (batch_parameters : BatchParameters.t) (h : heap) (s3 : s3_client)
  : (exn + build_result) * S3GlobReaderDataConnector * heap * s3_client
    * BatchParameters.t :=
  match BatchParameters.data_asset_name batch_parameters with
  | None =>
      (inl (BatchKwargsError
              "Unable to build BatchKwargs: no name provided in batch_parameters."
              (ctx_parameters batch_parameters)),
       self, h, s3, batch_parameters)
  | Some data_asset_name =>
      let partition_id := BatchParameters.partition_id batch_parameters in
      let batch_parameters := popped batch_parameters in
      let batch_kwargs :=
        processed_batch_definition self batch_parameters h in
      match partition_id with
      | Some partition_id =>
          if truthy (VStr partition_id) then
            match _assets self !! data_asset_name with
            | None =>
                (inl (GreatExpectationsError
                        ("No asset config found for asset "
                         +:+ data_asset_name)),
                 self, h, s3, batch_parameters)
            | Some asset_config =>
                let iterator_dict :=
                  default ∅ (_iterators self !! data_asset_name) in
                let '(e, (h', batch_kwargs, _), iterator_dict', s3') :=
                  for_get_asset_options re_match self asset_config
                    (scan_body self asset_config partition_id
                       (BatchParameters.reader_options batch_parameters))
                    (pending s3) iterator_dict (calls s3)
                    (h, batch_kwargs, O) in
                let self' :=
                  set_iterator self data_asset_name iterator_dict' in
                match e, batch_kwargs with
                | Some e, _ => (inl e, self', h', s3', batch_parameters)
                | None, None =>
                    (inl (BatchKwargsError
                            ("Unable to identify partition " +:+ partition_id
                             +:+ " for asset " +:+ data_asset_name)
                            (ctx_dict
                               (<[partition_id := partition_id]>
                                  {[data_asset_name := data_asset_name]}))),
                     self', h', s3', batch_parameters)
                | None, Some bk =>
                    (inr (Descriptor bk), set_batch_kwargs self' bk, h', s3',
                     batch_parameters)
                end
            end
          else
            (call_yield_batch_kwargs self data_asset_name batch_parameters
               batch_kwargs h s3,
             batch_parameters)
      | None =>
          (call_yield_batch_kwargs self data_asset_name batch_parameters
             batch_kwargs h s3,
           batch_parameters)
      end
  end.

End Facade.

(** ** Observing a listing pass *)

(** Whether the most recent listing response was truncated. *)
Definition last_response_truncated (s3 : s3_client) : bool :=
  match calls s3 with
  | (_, Some asset_options) :: _ => IsTruncated asset_options
  | _ => false
  end.

(** The state holds a token exactly when the most recent response was
    truncated. *)
Definition token_tracks_truncation (iterator_dict : gmap string string)
    (s3 : s3_client) : Prop :=
  is_Some (iterator_dict !! token_key) ↔ last_response_truncated s3 = true.

(** In the log of a pass (most recent call first) that started with
    [token0] in the state: the oldest call carries [token0], and every
    other call was made after a truncated response and carries its
    [NextContinuationToken]. *)
Fixpoint calls_carry_token (token0 : option string)
    (log : list (query_options * option list_objects_v2_response)) : Prop :=
  match log with
  | [] => True
  | (query, _) :: older =>
      match older with
      | [] => ContinuationToken query = token0
      | (_, previous) :: _ =>
          ∃ asset_options t,
            previous = Some asset_options
            ∧ IsTruncated asset_options = true
            ∧ NextContinuationToken asset_options = Some t
            ∧ ContinuationToken query = Some t
      end
      ∧ calls_carry_token token0 older
  end.

(** The page the pass left last was truncated, [older] being the calls
    before the most recent one; before any page was left, this is what the
    state said at the start. *)
Definition left_page_truncated (token0 : option string)
    (older : list (query_options * option list_objects_v2_response)) : Prop :=
  match older with
  | [] => is_Some token0
  | (_, previous) :: _ =>
      ∃ asset_options,
        previous = Some asset_options ∧ IsTruncated asset_options = true
  end.

(** What a [next()] leaves behind.  With [StopIteration] the state has no
    token and the last response was not truncated.  Otherwise the state
    holds the token the most recent call carried: it has a token exactly
    when the page left last was truncated. *)
Definition settled (token0 : option string) (sig : signal)
    (iterator_dict : gmap string string) (s3 : s3_client) : Prop :=
  match sig with
  | StopIteration =>
      iterator_dict !! token_key = None
      ∧ last_response_truncated s3 = false
  | Yield _ | Raise _ =>
      ∃ query answer older,
        calls s3 = (query, answer) :: older
        ∧ iterator_dict !! token_key = ContinuationToken query
        ∧ (is_Some (iterator_dict !! token_key)
           ↔ left_page_truncated token0 older)
  end.

(** A generator suspended on a page was given that page by the most
    recent call, and the state still holds the token of that call. *)
Definition suspended_on_last (token0 : option string) (g : generator)
    (iterator_dict : gmap string string) (s3 : s3_client) : Prop :=
  match g with
  | Suspended asset_options _ =>
      ∃ query older,
        calls s3 = (query, Some asset_options) :: older
        ∧ iterator_dict !! token_key = ContinuationToken query
  | Created => calls s3 = [] ∧ iterator_dict !! token_key = token0
  | Finished => True
  end.

(** The state is ready for a call on top of [log]: it holds the token of
    the truncated response the log ends with, or the token of the start. *)
Definition primed (token0 : option string)
    (iterator_dict : gmap string string)
    (log : list (query_options * option list_objects_v2_response)) : Prop :=
  match log with
  | [] => iterator_dict !! token_key = token0
  | (_, previous) :: _ =>
      ∃ asset_options t,
        previous = Some asset_options
        ∧ IsTruncated asset_options = true
        ∧ NextContinuationToken asset_options = Some t
        ∧ iterator_dict !! token_key = Some t
  end.

(** The response has the collection the mode of the asset reads. *)
Definition has_required_collection (asset_config : AssetConfig.t)
    (asset_options : list_objects_v2_response) : Prop :=
  if get (AssetConfig.directory_assets asset_config) false
  then is_Some (CommonPrefixes asset_options)
  else is_Some (Contents asset_options).

(** A truncated response that says where to go on. *)
Definition truncated_with_token (asset_options : list_objects_v2_response)
  : Prop :=
  IsTruncated asset_options = true
  ∧ is_Some (NextContinuationToken asset_options).

(** The keys one response contributes to a pass. *)
Definition yields_of (re_match : string -> string -> option match_object)
    (asset_config : AssetConfig.t) (asset_options : list_objects_v2_response)
  : list string :=
  match surviving_keys re_match asset_config asset_options with
  | inr keys => keys
  | inl _ => []
  end.

(** A number of [next()] that drains any pass over [responses]. *)
Definition steps_bound (re_match : string -> string -> option match_object)
    (asset_config : AssetConfig.t)
    (responses : list list_objects_v2_response) : nat :=
  S (sum_list_with
       (λ asset_options,
          S (length (yields_of re_match asset_config asset_options)))
       responses).

(** The states of one generator, started on a client that has not been
    called, under any number of [next()]. *)
Inductive reachable (re_match : string -> string -> option match_object)
    (self : S3GlobReaderDataConnector) (asset_config : AssetConfig.t)
    (iterator_dict0 : gmap string string)
    (responses : list list_objects_v2_response)
  : generator -> gmap string string -> s3_client -> Prop :=
  | reachable_created :
      reachable re_match self asset_config iterator_dict0 responses
        Created iterator_dict0 {| pending := responses; calls := [] |}
  | reachable_next g iterator_dict s3 sig g' iterator_dict' s3' :
      reachable re_match self asset_config iterator_dict0 responses
        g iterator_dict s3 ->
      _get_asset_options_next re_match self asset_config g iterator_dict s3
      = (sig, g', iterator_dict', s3') ->
      reachable re_match self asset_config iterator_dict0 responses
        g' iterator_dict' s3'.

(** The merge of the three layers of reader options, later layers first. *)
Definition merged_reader_options (connector_level : pydict)
    (asset_level call_level : option pydict) : pydict :=
  default ∅ call_level ∪ (default ∅ asset_level ∪ connector_level).

(** The [n]-th key of a scan resolves to the requested partition id. *)
Definition resolves_to (re_match : string -> string -> option match_object)
    (clock : nat -> string) (asset_config : AssetConfig.t)
    (partition_id : string) (n : nat) (key : string) : Prop :=
  _partitioner re_match (clock n) key asset_config = VStr partition_id.

#[global] Instance resolves_to_dec re_match clock asset_config partition_id n key :
  Decision (resolves_to re_match clock asset_config partition_id n key).
Proof. unfold resolves_to. apply _. Defined.

(** Two values of [limit] the builder does not tell apart. *)
Definition same_limit (limit limit' : pyval) : Prop :=
  truthy limit = truthy limit' ∧ (truthy limit = true -> limit = limit').

(** [batch_kwargs["reader_options"]] read in heap [h]. *)
Definition descriptor_reader_options (h : heap) (batch_kwargs : pydict)
  : pydict :=
  match batch_kwargs !! "reader_options" with
  | Some (VRef l) => deref h l
  | _ => ∅
  end.

(** The reader method the three layers call for, the call first. *)
Definition preferred_reader_method
    (connector_level asset_level call_level : option string) : option string :=
  match call_level with
  | Some m => Some m
  | None =>
      match asset_level with
      | Some m => if truthy (VStr m) then Some m else connector_level
      | None => connector_level
      end
  end.

(** ** Sample data *)

Module Sample.

(** What [re.match] answers on the patterns and keys used below. *)
Definition re_match (pattern s : string) : option match_object :=
  if String.eqb pattern ".*" then Some [Some s]
  else if String.eqb pattern "logs/(\d{4})\.csv" then
    if String.eqb s "logs/2020.csv"
    then Some [Some "logs/2020.csv"; Some "2020"]
    else if String.eqb s "logs/2020.csv.bak"
    then Some [Some "logs/2020.csv"; Some "2020"]
    else if String.eqb s "logs/2019.csv"
    then Some [Some "logs/2019.csv"; Some "2019"]
    else None
  else None.

Definition clock (n : nat) : string := "20201103T101500.000000Z".

(** An engine that answers with the limit it was given, if any. *)
Definition process_batch_definition (reader_method : option string)
    (reader_options : pydict) (limit : pyval) : option pydict :=
  Some (if truthy limit then {["limit" := limit]} else ∅).

Definition asset (prefix partition_regex : option string)
    (directory_assets : option bool) (reader_options : option pydict)
  : AssetConfig.t :=
  {| AssetConfig.prefix := prefix;
     AssetConfig.delimiter := None;
     AssetConfig.regex_filter := None;
     AssetConfig.partition_regex := partition_regex;
     AssetConfig.match_group_id := None;
     AssetConfig.directory_assets := directory_assets;
     AssetConfig.max_keys := None;
     AssetConfig.reader_method := None;
     AssetConfig.reader_options := reader_options |}.

Definition files : AssetConfig.t := asset (Some "logs/") None None None.

Definition directories : AssetConfig.t :=
  asset (Some "logs/") None (Some true) None.

Definition by_year : AssetConfig.t :=
  asset (Some "logs/") (Some "logs/(\d{4})\.csv") None None.

Definition tilde_separated : AssetConfig.t :=
  asset (Some "access_logs") None None (Some {["sep" := VStr "~"]}).

Definition connector : S3GlobReaderDataConnector :=
  {| _bucket := "my_bucket";
     _reader_method := Some "csv";
     _reader_options := 1%positive;
     _assets :=
       <["access_logs" := tilde_separated]>
         (<["by_year" := by_year]> {["files" := files]});
     _delimiter := "/";
     _max_keys := 1000;
     _iterators := ∅;
     batch_kwargs_attr := None |}.

(** The heap after [reader_options: {sep: ","}] was given to the
    connector. *)
Definition heap0 : heap := {[1%positive := {["sep" := VStr ","]}]}.

Definition page (keys : list (string * Z)) (next : option string)
  : list_objects_v2_response :=
  {| CommonPrefixes := None;
     Contents := Some ((λ kv, {| Key := kv.1; Size := kv.2 |}) <$> keys);
     IsTruncated := bool_decide (is_Some next);
     NextContinuationToken := next |}.

Definition page1 := page [("a", 7); ("b", 7)] (Some "t1").
Definition page2 := page [("c", 7)] None.

Definition client (responses : list list_objects_v2_response) : s3_client :=
  {| pending := responses; calls := [] |}.

End Sample.

(** A pattern whose only group is optional: on the key [b] the regex
    matches and group 1 takes no part. *)
Module Optional.

Definition re_match (pattern s : string) : option match_object :=
  if String.eqb pattern "(a)?b" then
    if String.eqb s "ab" then Some [Some "ab"; Some "a"]
    else if String.eqb s "b" then Some [Some "b"; None]
    else None
  else None.

Definition by_letter : AssetConfig.t :=
  Sample.asset None (Some "(a)?b") None None.

End Optional.

(** A [yield_batch_kwargs] that hands back the [batch_kwargs] it was given
    and touches nothing. *)
Module Base.

Definition yield_batch_kwargs : inherited_method :=
  λ self data_asset_name batch_parameters batch_kwargs h s3,
    (inr batch_kwargs, self, h, s3).

End Base.

(** ** The rest of the facade *)

(** [__init__], up to the client: [boto3.client("s3", **boto3_options)] is
    taken by what it does, the client or a [TypeError], and the constructor of
    the base class keeps the name and the execution environment, which this
    class does not read.  An optional argument is [None] when it is left out;
    [reader_options] is a reference to the caller's dict, and [bucket] is
    the string the descriptors are built with. *)
Definition default_assets : gmap string AssetConfig.t :=
  {["default" :=
      {| AssetConfig.prefix := Some "";
         AssetConfig.delimiter := None;
         AssetConfig.regex_filter := Some ".*";
         AssetConfig.partition_regex := None;
         AssetConfig.match_group_id := None;
         AssetConfig.directory_assets := None;
         AssetConfig.max_keys := None;
         AssetConfig.reader_method := None;
         AssetConfig.reader_options := None |}]}.

Inductive init_error :=
  | ImportError (message : string).

Definition __init__ (h : heap) (bucket : string)
    (reader_options : option loc)
    (assets : option (gmap string AssetConfig.t))
    (delimiter : option string) (reader_method : option string)
    (max_keys : option Z) (boto3_client : option s3_client)
  : init_error + (S3GlobReaderDataConnector * heap * s3_client) :=
  let '(reader_options, h) :=
    match reader_options with
    | Some l => (l, h)
    | None => let l := fresh (dom h) in (l, <[l := ∅]> h)
    end in
  let assets := get assets default_assets in
  match boto3_client with
  | None =>
      inl (ImportError
             "Unable to load boto3, which is required for S3 data connector")
  | Some s3 =>
      inr ({| _bucket := bucket;
              _reader_method := reader_method;
              _reader_options := reader_options;
              _assets := assets;
              _delimiter := get delimiter "/";
              _max_keys := get max_keys 1000;
              _iterators := ∅;
              batch_kwargs_attr := None |}, h, s3)
  end.

(** The list under ["names"] in what [get_available_data_asset_names]
    returns.  The names come in the order of the dict [_assets], which a
    finite map does not keep: only membership is meant. *)
Definition get_available_data_asset_names (self : S3GlobReaderDataConnector)
  : list (string * string) :=
  (λ kv, (kv.1, "file")) <$> map_to_list (_assets self).

(** What [get_available_partition_ids] can raise. *)
Inductive partition_ids_exn :=
  | AssertionError (message : string)
  | Propagated (e : exn).

(** An optional string argument that is given and not empty. *)
Definition given (x : option string) : bool :=
  match x with
  | Some s => truthy (VStr s)
  | None => false
  end.

(** The body of the comprehension of [get_available_partition_ids]: the ids
    so far and the number of keys seen. *)
Definition collect_partition_id
    (re_match : string -> string -> option match_object)
    (clock : nat -> string) (asset_config : AssetConfig.t)
    (key : string) (acc : list pyval * nat)
  : option exn * (list pyval * nat) :=
  (None,
   (acc.1 ++ [_partitioner re_match (clock acc.2) key asset_config],
    S acc.2)).

(** [get_available_partition_ids]: the ids or the exception, the connector
    and the client afterwards, and the warnings issued. *)
Definition get_available_partition_ids
    (re_match : string -> string -> option match_object)
    (clock : nat -> string) (self : S3GlobReaderDataConnector)
    (generator_asset data_asset_name : option string) (s3 : s3_client)
  : (partition_ids_exn + list pyval) * S3GlobReaderDataConnector * s3_client
    * list string :=
  if (given generator_asset && negb (given data_asset_name))
     || (negb (given generator_asset) && given data_asset_name)
  then
    let warnings :=
      if given generator_asset
      then ["The 'generator_asset' argument will be deprecated and renamed to 'data_asset_name'. "
            +:+ "Please update code accordingly."]
      else [] in
    let data_asset_name :=
      get (if given generator_asset then generator_asset
           else data_asset_name) "" in
    let iterator_dict := default ∅ (_iterators self !! data_asset_name) in
    let self := set_iterator self data_asset_name iterator_dict in
    match _assets self !! data_asset_name with
    | None => (inl (Propagated (KeyError data_asset_name)), self, s3, warnings)
    | Some asset_config =>
        let '(e, (available_ids, _), iterator_dict', s3') :=
          for_get_asset_options re_match self asset_config
            (collect_partition_id re_match clock asset_config)
            (pending s3) iterator_dict (calls s3) ([], O) in
        let self := set_iterator self data_asset_name iterator_dict' in
        match e with
        | Some e => (inl (Propagated e), self, s3', warnings)
        | None => (inr available_ids, self, s3', warnings)
        end
    end
  else
    (inl (AssertionError
            "Please provide either generator_asset or data_asset_name."),
     self, s3, []).

(** ** More observations *)

(** The state after a pass has left [pages] behind, each of them truncated:
    it holds the token of the last of them. *)
Definition token_after (iterator_dict : gmap string string)
    (pages : list list_objects_v2_response) : gmap string string :=
  match last pages with
  | Some p =>
      match NextContinuationToken p with
      | Some t => <[token_key := t]> iterator_dict
      | None => iterator_dict
      end
  | None => iterator_dict
  end.

(** The key resolves without the clock being read. *)
Definition resolves_off_clock
    (re_match : string -> string -> option match_object)
    (asset_config : AssetConfig.t) (key : string) : Prop :=
  match AssetConfig.partition_regex asset_config with
  | Some pattern =>
      ∃ matches,
        re_match pattern key = Some matches
        ∧ is_Some (group matches
                     (get (AssetConfig.match_group_id asset_config) 1))
  | None => True
  end.

(** The URI a descriptor gives for a key. *)
Definition s3_uri (self : S3GlobReaderDataConnector) (key : string) : pyval :=
  VStr ("s3a://" +:+ _bucket self +:+ "/" +:+ key).

(** The entries a descriptor has, going by the reader method and the limit
    it was built with. *)
Definition descriptor_keys (reader_method : option string) (limit : pyval)
  : gset string :=
  {["s3"; "reader_options"]}
  ∪ (match reader_method with Some _ => {["reader_method"]} | None => ∅ end)
  ∪ (if truthy limit then {["limit"]} else ∅).

(** * Properties *)

(** ** Partition ids *)

Lemma startswith_app (p rest : string) : startswith (p +:+ rest) p = true.
Proof.
  unfold startswith. induction p as [|c p IH]; simpl.
  - by destruct rest.
  - destruct (Ascii.ascii_dec c c) as [_|Hne]; [exact IH | by destruct Hne].
Qed.

Lemma slice_from_app (p rest : string) :
  slice_from (String.length p) (p +:+ rest) = rest.
Proof. induction p as [|c p IH]; simpl; [by destruct rest | exact IH]. Qed.

Lemma group_held (m : match_object) (i : Z) (held : option string) :
  0 ≤ i -> m !! Z.to_nat i = Some held ->
  group m i = Some (match held with Some txt => VStr txt | None => VNone end).
Proof.
  intros Hi Hm. unfold group.
  destruct (Z.ltb_spec i 0) as [Hneg|_]; [lia|]. rewrite Hm. by destruct held.
Qed.

Lemma group_out_of_range (m : match_object) (i : Z) :
  i < 0 ∨ (length m ≤ Z.to_nat i)%nat -> group m i = None.
Proof.
  intros Hi. unfold group.
  destruct (Z.ltb_spec i 0) as [Hneg|Hpos]; [done|].
  destruct Hi as [Hi|Hi]; [lia|]. by rewrite lookup_ge_None_2.
Qed.

(** C1, as the claim reads: when the regex matches the key and the group
    is there, the partition id is a text.  It is not on the key [b] under
    the pattern [(a)?b]: the regex matches, group 1 is one of the groups of
    the match, it took no part in it, and the partition id is [None]. *)
Lemma partitioner_unset_group_counterexample :
  ∃ matches,
    AssetConfig.partition_regex Optional.by_letter = Some "(a)?b"
    ∧ Optional.re_match "(a)?b" "b" = Some matches
    ∧ 0 ≤ get (AssetConfig.match_group_id Optional.by_letter) 1
    ∧ (Z.to_nat (get (AssetConfig.match_group_id Optional.by_letter) 1%Z)
       < length matches)%nat
    ∧ _partitioner Optional.re_match "T" "b" Optional.by_letter = VNone
    ∧ ∀ txt, _partitioner Optional.re_match "T" "b" Optional.by_letter
             ≠ VStr txt.
Proof.
  exists [Some "b"; None].
  split; [reflexivity|]. split; [reflexivity|]. split; [done|].
  split; [cbn; lia|]. split; [reflexivity|]. intros txt. discriminate.
Qed.

(** C1, amended.  With [partition_regex] configured, when the regex matches
    and the group [match_group_id] is there, the partition id is what the
    group holds: its text when the group took part in the match, [None] when
    it did not.  It is the timestamp followed by [__unmatched] when the regex
    does not match, and the timestamp followed by [__no_match_group] when it
    matches but the group index is out of range.  Without [partition_regex],
    a key that starts with the configured prefix gives what follows the
    prefix, and any other key gives itself. *)
Theorem partitioner_cases
    (re_match : string -> string -> option match_object)
    (now key : string) (asset_config : AssetConfig.t) :
  let match_group_id := get (AssetConfig.match_group_id asset_config) 1 in
  (∀ pattern matches held,
      AssetConfig.partition_regex asset_config = Some pattern ->
      re_match pattern key = Some matches ->
      0 ≤ match_group_id ->
      matches !! Z.to_nat match_group_id = Some held ->
      _partitioner re_match now key asset_config
      = match held with Some txt => VStr txt | None => VNone end)
  ∧ (∀ pattern,
      AssetConfig.partition_regex asset_config = Some pattern ->
      re_match pattern key = None ->
      _partitioner re_match now key asset_config
      = VStr (now +:+ "__unmatched"))
  ∧ (∀ pattern matches,
      AssetConfig.partition_regex asset_config = Some pattern ->
      re_match pattern key = Some matches ->
      match_group_id < 0 ∨ (length matches ≤ Z.to_nat match_group_id)%nat ->
      _partitioner re_match now key asset_config
      = VStr (now +:+ "__no_match_group"))
  ∧ (∀ rest,
      AssetConfig.partition_regex asset_config = None ->
      key = get (AssetConfig.prefix asset_config) "" +:+ rest ->
      _partitioner re_match now key asset_config = VStr rest)
  ∧ (AssetConfig.partition_regex asset_config = None ->
     startswith key (get (AssetConfig.prefix asset_config) "") = false ->
     _partitioner re_match now key asset_config = VStr key).
Proof.
  intros gid. unfold _partitioner. fold gid. repeat split.
  - intros pattern matches held -> -> Hpos Hgroup.
    by rewrite (group_held _ _ held).
  - by intros pattern -> ->.
  - intros pattern matches -> -> Hrange.
    by rewrite group_out_of_range.
  - intros rest -> ->.
    by rewrite startswith_app, slice_from_app.
  - by intros -> ->.
Qed.

Lemma partitioner_cases_witness :
  _partitioner Sample.re_match "T" "logs/2020.csv" Sample.by_year = VStr "2020"
  ∧ _partitioner Optional.re_match "T" "b" Optional.by_letter = VNone
  ∧ _partitioner Sample.re_match "T" "logs/abcd.csv" Sample.by_year
    = VStr "T__unmatched"
  ∧ _partitioner Sample.re_match "T" "x"
      (Sample.asset None (Some ".*") None None)
    = VStr "T__no_match_group"
  ∧ _partitioner Sample.re_match "T" "logs/2020.csv" Sample.files
    = VStr "2020.csv".
Proof.
  split; [|split; [|split; [|split]]].
  - apply (partitioner_cases Sample.re_match "T" "logs/2020.csv"
             Sample.by_year)
      with (pattern := "logs/(\d{4})\.csv")
           (matches := [Some "logs/2020.csv"; Some "2020"])
           (held := Some "2020");
      [reflexivity | reflexivity | simpl; lia | reflexivity].
  - apply (partitioner_cases Optional.re_match "T" "b" Optional.by_letter)
      with (pattern := "(a)?b") (matches := [Some "b"; None])
           (held := None);
      [reflexivity | reflexivity | simpl; lia | reflexivity].
  - apply (partitioner_cases Sample.re_match "T" "logs/abcd.csv"
             Sample.by_year)
      with (pattern := "logs/(\d{4})\.csv"); reflexivity.
  - apply (partitioner_cases Sample.re_match "T" "x"
             (Sample.asset None (Some ".*") None None))
      with (pattern := ".*") (matches := [Some "x"]);
      [reflexivity | reflexivity | right; simpl; lia].
  - apply (partitioner_cases Sample.re_match "T" "logs/2020.csv" Sample.files);
      reflexivity.
Defined.

(** ** Listing passes *)

Section PassProperties.

Variable re_match : string -> string -> option match_object.
Variable self : S3GlobReaderDataConnector.
Variable asset_config : AssetConfig.t.

Lemma surviving_keys_ok (asset_options : list_objects_v2_response) :
  has_required_collection asset_config asset_options ->
  surviving_keys re_match asset_config asset_options
  = inr (yields_of re_match asset_config asset_options).
Proof.
  unfold has_required_collection, yields_of, surviving_keys, listed_keys.
  destruct (get (AssetConfig.directory_assets asset_config) false);
    intros [items ->]; reflexivity.
Qed.

Lemma after_keys_truncated (asset_options : list_objects_v2_response)
    (iterator_dict : gmap string string) :
  truncated_with_token asset_options ->
  ∃ t, NextContinuationToken asset_options = Some t
       ∧ after_keys asset_options iterator_dict
         = inr (true, <[token_key := t]> iterator_dict).
Proof.
  intros [Htr [t Ht]]. exists t. unfold after_keys. by rewrite Htr, Ht.
Qed.

Section Body.

Context {A : Type}.
Variable body : string -> A -> option exn * A.

Lemma for_keys_app (keys1 keys2 : list string) (acc : A) :
  for_keys body (keys1 ++ keys2) acc
  = match for_keys body keys1 acc with
    | (Some e, acc') => (Some e, acc')
    | (None, acc') => for_keys body keys2 acc'
    end.
Proof.
  revert acc. induction keys1 as [|key keys1 IH]; intros acc; simpl.
  - reflexivity.
  - destruct (body key acc) as [[e|] acc']; [reflexivity | apply IH].
Qed.

Lemma for_keys_app_None (keys1 keys2 : list string) (acc acc' : A) :
  for_keys body (keys1 ++ keys2) acc = (None, acc') ->
  ∃ acc1, for_keys body keys1 acc = (None, acc1)
          ∧ for_keys body keys2 acc1 = (None, acc').
Proof.
  rewrite for_keys_app.
  destruct (for_keys body keys1 acc) as [[e|] acc1]; [done|].
  intros H. by exists acc1.
Qed.

(** A pass over truncated pages followed by an untruncated one, none of
    them misshapen: the loop body sees the keys of all pages in one
    sequence, every page is requested, every follow-up request carries
    the token of the page before, and no token is left. *)
Lemma for_get_asset_options_complete
    (pages : list list_objects_v2_response)
    (last : list_objects_v2_response)
    (iterator_dict : gmap string string)
    (log : list (query_options * option list_objects_v2_response))
    (acc acc' : A) :
  Forall (λ p, truncated_with_token p
               ∧ has_required_collection asset_config p) pages ->
  IsTruncated last = false ->
  has_required_collection asset_config last ->
  for_keys body
    (concat (yields_of re_match asset_config <$> (pages ++ [last]))) acc
  = (None, acc') ->
  ∃ queries,
    for_get_asset_options re_match self asset_config body
      (pages ++ [last]) iterator_dict log acc
    = (None, acc', delete token_key iterator_dict,
       {| pending := [];
          calls := reverse (zip queries (Some <$> (pages ++ [last])))
                   ++ log |})
    ∧ length queries = length (pages ++ [last])
    ∧ ContinuationToken <$> queries
      = iterator_dict !! token_key :: (NextContinuationToken <$> pages).
Proof.
  intros Hpages Hlast Hshape.
  revert iterator_dict log acc.
  induction Hpages as [|p pages [Htrunc Hp] _ IH];
    intros iterator_dict log acc Hkeys.
  - simpl in Hkeys. rewrite app_nil_r in Hkeys.
    exists [build_query_options self asset_config iterator_dict].
    simpl. rewrite (surviving_keys_ok _ Hshape), Hkeys.
    unfold after_keys. rewrite Hlast. done.
  - change ((p :: pages) ++ [last]) with (p :: (pages ++ [last])) in *.
    rewrite fmap_cons in Hkeys. simpl in Hkeys.
    apply for_keys_app_None in Hkeys as (acc1 & Hkeys1 & Hkeys2).
    destruct (after_keys_truncated p iterator_dict Htrunc)
      as (t & Ht & Hafter).
    destruct (IH (<[token_key := t]> iterator_dict)
                ((build_query_options self asset_config iterator_dict,
                  Some p) :: log) acc1 Hkeys2)
      as (queries & Hrun & Hlen & Htokens).
    exists (build_query_options self asset_config iterator_dict :: queries).
    split; [|split].
    + cbn [for_get_asset_options].
      rewrite (surviving_keys_ok _ Hp), Hkeys1, Hafter.
      cbn [calls]. rewrite Hrun, delete_insert_eq.
      rewrite fmap_cons. cbn [zip zip_with].
      rewrite reverse_cons, <- app_assoc. reflexivity.
    + cbn [length]. by rewrite Hlen.
    + rewrite !fmap_cons, Htokens, lookup_insert_eq, Ht. reflexivity.
Qed.

End Body.

Section Agreement.

Context {A : Type}.
Variable body : string -> A -> option exn * A.

(** Resuming a generator suspended on a page, when the loop over the
    rest of the pass is known to agree for the pages after it. *)
Lemma for_next_suspended
    (asset_options : list_objects_v2_response)
    (responses : list list_objects_v2_response)
    (iterator_dict : gmap string string)
    (log : list (query_options * option list_objects_v2_response))
    (bound : nat) :
  (∀ iterator_dict' acc' fuel,
      (bound ≤ fuel)%nat ->
      for_next re_match self asset_config body fuel Created iterator_dict'
        {| pending := responses; calls := log |} acc'
      = Some (for_get_asset_options re_match self asset_config body
                responses iterator_dict' log acc')) ->
  (0 < bound)%nat ->
  ∀ keys acc fuel,
    (length keys + bound ≤ fuel)%nat ->
    for_next re_match self asset_config body fuel
      (Suspended asset_options keys) iterator_dict
      {| pending := responses; calls := log |} acc
    = Some
        match for_keys body keys acc with
        | (Some e, acc') =>
            (Some e, acc', iterator_dict,
             {| pending := responses; calls := log |})
        | (None, acc') =>
            match after_keys asset_options iterator_dict with
            | inl e =>
                (Some e, acc', iterator_dict,
                 {| pending := responses; calls := log |})
            | inr (true, iterator_dict') =>
                for_get_asset_options re_match self asset_config body
                  responses iterator_dict' log acc'
            | inr (false, iterator_dict') =>
                (None, acc', iterator_dict',
                 {| pending := responses; calls := log |})
            end
        end.
Proof.
  intros Hrest Hbound keys.
  induction keys as [|key keys IH]; intros acc fuel Hfuel.
  - destruct fuel as [|fuel]; [simpl in Hfuel; lia|].
    cbn [for_keys].
    pose proof (Hrest) as Hrest'.
    cbn [for_next _get_asset_options_next].
    destruct (after_keys asset_options iterator_dict)
      as [e|[[] iterator_dict']]; try reflexivity.
    specialize (Hrest' iterator_dict' acc (S fuel)).
    cbn [for_next _get_asset_options_next pending calls] in Hrest'.
    apply Hrest'. simpl in Hfuel. lia.
  - destruct fuel as [|fuel]; [simpl in Hfuel; lia|].
    cbn [for_next _get_asset_options_next for_keys].
    destruct (body key acc) as [[e|] acc']; [reflexivity|].
    apply IH. simpl in Hfuel. lia.
Qed.

(** The loop driven by [next()] computes what the loop run to its end
    does, whatever the responses. *)
Lemma for_next_for_get_asset_options
    (responses : list list_objects_v2_response)
    (iterator_dict : gmap string string)
    (log : list (query_options * option list_objects_v2_response))
    (acc : A) (fuel : nat) :
  (steps_bound re_match asset_config responses ≤ fuel)%nat ->
  for_next re_match self asset_config body fuel Created iterator_dict
    {| pending := responses; calls := log |} acc
  = Some (for_get_asset_options re_match self asset_config body
            responses iterator_dict log acc).
Proof.
  revert iterator_dict log acc fuel.
  induction responses as [|asset_options responses IH];
    intros iterator_dict log acc fuel Hfuel.
  - destruct fuel as [|fuel]; [unfold steps_bound in Hfuel; simpl in Hfuel; lia|].
    reflexivity.
  - assert (Hsteps : steps_bound re_match asset_config
                       (asset_options :: responses)
                     = S (length (yields_of re_match asset_config
                                    asset_options)
                          + steps_bound re_match asset_config responses))
      by (unfold steps_bound; simpl; lia).
    rewrite Hsteps in Hfuel. clear Hsteps.
    pose proof (for_next_suspended asset_options responses iterator_dict
                  ((build_query_options self asset_config iterator_dict,
                    Some asset_options) :: log)
                  (steps_bound re_match asset_config responses)
                  (λ d a f, IH d _ a f)
                  ltac:(unfold steps_bound; lia)) as Hsusp.
    unfold yields_of in Hfuel.
    destruct fuel as [|fuel]; [lia|].
    specialize (Hsusp (yields_of re_match asset_config asset_options)
                  acc (S fuel)).
    unfold yields_of in Hsusp.
    cbn [for_get_asset_options].
    destruct (surviving_keys re_match asset_config asset_options)
      as [e|keys] eqn:Hkeys.
    + cbn [for_next _get_asset_options_next enter pending calls].
      by rewrite Hkeys.
    + destruct keys as [|key keys].
      * specialize (Hsusp ltac:(simpl in *; lia)).
        cbn [for_keys] in *.
        cbn [for_next _get_asset_options_next enter pending calls].
        rewrite Hkeys.
        cbn [for_next _get_asset_options_next] in Hsusp.
        destruct (after_keys asset_options iterator_dict)
          as [e|[[] iterator_dict']]; try reflexivity.
        exact Hsusp.
      * specialize (Hsusp ltac:(simpl in *; lia)).
        cbn [for_next _get_asset_options_next enter pending calls].
        rewrite Hkeys.
        cbn [for_next _get_asset_options_next] in Hsusp.
        exact Hsusp.
Qed.

End Agreement.

Lemma for_keys_collect (keys acc : list string) :
  for_keys collect keys acc = (None, acc ++ keys).
Proof.
  revert acc. induction keys as [|key keys IH]; intros acc; simpl.
  - by rewrite app_nil_r.
  - rewrite IH, <- app_assoc. reflexivity.
Qed.

End PassProperties.

(** C2. A pass over pages that report truncation, up to an untruncated one:
    draining it issues one listing call per page, each follow-up call
    carrying the continuation token returned with the page before; it yields
    the surviving keys of all pages, in page order and in the order of each
    page; and it leaves the per-asset state without a continuation token.
    The generator drained by [next()] does the same. *)
Theorem listing_pass_concatenates_pages
    (re_match : string -> string -> option match_object)
    (self : S3GlobReaderDataConnector) (asset_config : AssetConfig.t)
    (pages : list list_objects_v2_response)
    (last : list_objects_v2_response)
    (iterator_dict : gmap string string) :
  Forall (λ p, truncated_with_token p
               ∧ has_required_collection asset_config p) pages ->
  IsTruncated last = false ->
  has_required_collection asset_config last ->
  ∃ queries,
    let drained :=
      (None,
       concat (yields_of re_match asset_config <$> (pages ++ [last])),
       delete token_key iterator_dict,
       {| pending := [];
          calls := reverse (zip queries (Some <$> (pages ++ [last]))) |}) in
    for_get_asset_options re_match self asset_config collect
      (pages ++ [last]) iterator_dict [] []
    = drained
    ∧ (∀ fuel,
         (steps_bound re_match asset_config (pages ++ [last]) ≤ fuel)%nat ->
         for_next re_match self asset_config collect fuel Created
           iterator_dict {| pending := pages ++ [last]; calls := [] |} []
         = Some drained)
    ∧ length queries = length (pages ++ [last])
    ∧ ContinuationToken <$> queries
      = iterator_dict !! token_key :: (NextContinuationToken <$> pages).
Proof.
  intros Hpages Hlast Hshape.
  destruct (for_get_asset_options_complete re_match self asset_config collect
              pages last iterator_dict [] []
              (concat (yields_of re_match asset_config <$> (pages ++ [last])))
              Hpages Hlast Hshape)
    as (queries & Hrun & Hlen & Htokens).
  { apply (for_keys_collect _ []). }
  rewrite app_nil_r in Hrun.
  exists queries. cbv zeta. split; [exact Hrun|]. split; [|by split].
  intros fuel Hfuel.
  rewrite for_next_for_get_asset_options by exact Hfuel.
  by rewrite Hrun.
Qed.

Lemma listing_pass_concatenates_pages_witness :
  ∃ s3,
    for_get_asset_options Sample.re_match Sample.connector Sample.files
      collect [Sample.page1; Sample.page2] ∅ [] []
    = (None, ["a"; "b"; "c"], ∅, s3)
    ∧ pending s3 = []
    ∧ (ContinuationToken ∘ fst) <$> reverse (calls s3) = [None; Some "t1"].
Proof.
  destruct (listing_pass_concatenates_pages Sample.re_match Sample.connector
              Sample.files [Sample.page1] Sample.page2 ∅)
    as (queries & Hrun & _ & Hlen & Htokens).
  - constructor; [|constructor].
    split; [split; [reflexivity | by eexists] | by eexists].
  - reflexivity.
  - by eexists.
  - eexists. split; [exact Hrun|]. split; [reflexivity|].
    cbn [calls]. rewrite reverse_involutive, list_fmap_compose.
    rewrite fst_zip by (rewrite length_fmap, Hlen; reflexivity).
    exact Htokens.
Defined.

(** ** The continuation token, one [next()] at a time *)

Section TokenProperties.

Variable re_match : string -> string -> option match_object.
Variable self : S3GlobReaderDataConnector.
Variable asset_config : AssetConfig.t.
Variable token0 : option string.

Lemma calls_carry_token_cons iterator_dict answer log :
  primed token0 iterator_dict log ->
  calls_carry_token token0 log ->
  calls_carry_token token0
    ((build_query_options self asset_config iterator_dict, answer) :: log).
Proof.
  intros Hprimed Hlog. split; [|exact Hlog].
  destruct log as [|[query previous] older]; [exact Hprimed|].
  destruct Hprimed as (asset_options & t & -> & Htr & Ht & Hd).
  exists asset_options, t. split_and!; [done..|exact Hd].
Qed.

Lemma carried_token_tracks_left_page query answer older
    (iterator_dict : gmap string string) :
  calls_carry_token token0 ((query, answer) :: older) ->
  iterator_dict !! token_key = ContinuationToken query ->
  is_Some (iterator_dict !! token_key) ↔ left_page_truncated token0 older.
Proof.
  intros [Hquery _] ->.
  destruct older as [|[query' previous] older']; cbn [left_page_truncated].
  - by rewrite Hquery.
  - destruct Hquery as (asset_options & t & -> & Htr & _ & ->).
    split; [by exists asset_options | by exists t].
Qed.

Lemma settled_on_last_call (sig : signal) query answer older
    (iterator_dict : gmap string string) (s3 : s3_client) :
  sig ≠ StopIteration ->
  calls s3 = (query, answer) :: older ->
  calls_carry_token token0 (calls s3) ->
  iterator_dict !! token_key = ContinuationToken query ->
  settled token0 sig iterator_dict s3.
Proof.
  intros Hsig Hcalls Hlog Htoken.
  assert (Hgoal : ∃ query answer older,
             calls s3 = (query, answer) :: older
             ∧ iterator_dict !! token_key = ContinuationToken query
             ∧ (is_Some (iterator_dict !! token_key)
                ↔ left_page_truncated token0 older)).
  { exists query, answer, older. split_and!; [done..|].
    rewrite Hcalls in Hlog. by eapply carried_token_tracks_left_page. }
  by destruct sig.
Qed.

Lemma after_keys_primed asset_options iterator_dict iterator_dict' query older :
  after_keys asset_options iterator_dict = inr (true, iterator_dict') ->
  primed token0 iterator_dict' ((query, Some asset_options) :: older).
Proof.
  unfold after_keys.
  destruct (IsTruncated asset_options) eqn:Htr; [|done].
  destruct (NextContinuationToken asset_options) as [t|] eqn:Ht; [|done].
  intros [= <-]. exists asset_options, t.
  by rewrite lookup_insert_eq.
Qed.

Lemma after_keys_completed asset_options iterator_dict iterator_dict' :
  after_keys asset_options iterator_dict = inr (false, iterator_dict') ->
  iterator_dict' !! token_key = None ∧ IsTruncated asset_options = false.
Proof.
  unfold after_keys.
  destruct (IsTruncated asset_options) eqn:Htr.
  - by destruct (NextContinuationToken asset_options).
  - intros [= <-]. by rewrite lookup_delete_eq.
Qed.

Lemma enter_settled responses iterator_dict log sig g' iterator_dict' s3' :
  primed token0 iterator_dict log ->
  calls_carry_token token0 log ->
  enter re_match self asset_config responses iterator_dict log
  = (sig, g', iterator_dict', s3') ->
  calls_carry_token token0 (calls s3')
  ∧ settled token0 sig iterator_dict' s3'
  ∧ suspended_on_last token0 g' iterator_dict' s3'
  ∧ g' ≠ Created.
Proof.
  revert iterator_dict log.
  induction responses as [|asset_options responses IH];
    intros iterator_dict log Hprimed Hlog; cbn [enter].
  - pose proof (calls_carry_token_cons iterator_dict None log Hprimed Hlog)
      as Hlog'.
    intros [= <- <- <- <-]. cbn [calls suspended_on_last].
    split; [exact Hlog'|]. split; [|done].
    by eapply settled_on_last_call.
  - pose proof (calls_carry_token_cons iterator_dict (Some asset_options) log
                  Hprimed Hlog) as Hlog'.
    destruct (surviving_keys re_match asset_config asset_options)
      as [e|[|key rest]].
    + intros [= <- <- <- <-]. cbn [calls suspended_on_last].
      split; [exact Hlog'|]. split; [|done].
      by eapply settled_on_last_call.
    + destruct (after_keys asset_options iterator_dict)
        as [e|[[] iterator_dict1]] eqn:Hafter.
      * intros [= <- <- <- <-]. cbn [calls suspended_on_last].
        split; [exact Hlog'|]. split; [|done].
        by eapply settled_on_last_call.
      * apply IH; [|exact Hlog'].
        by apply (after_keys_primed _ iterator_dict).
      * intros [= <- <- <- <-]. cbn [calls settled suspended_on_last].
        destruct (after_keys_completed _ _ _ Hafter) as [Hnone Htr].
        split; [exact Hlog'|]. by split.
    + intros [= <- <- <- <-]. cbn [calls suspended_on_last].
      split; [exact Hlog'|]. split; [by eapply settled_on_last_call|].
      split; [by eexists _, _|done].
Qed.

Variable iterator_dict0 : gmap string string.
Variable responses : list list_objects_v2_response.
Hypothesis Htoken0 : iterator_dict0 !! token_key = token0.

Lemma reachable_invariant g iterator_dict s3 :
  reachable re_match self asset_config iterator_dict0 responses
    g iterator_dict s3 ->
  calls_carry_token token0 (calls s3)
  ∧ suspended_on_last token0 g iterator_dict s3.
Proof.
  induction 1 as [|g it s3 sig g' it' s3' _ [Hlog Hsusp] Hnext]; [done|].
  destruct g as [|asset_options [|key rest]|];
    cbn [_get_asset_options_next] in Hnext.
  - destruct Hsusp as [Hcalls Htoken]. rewrite Hcalls in Hnext.
    by apply enter_settled in Hnext as (? & _ & ? & _).
  - destruct Hsusp as (query & older & Hcalls & Htoken).
    destruct (after_keys asset_options it) as [e|[[] it1]] eqn:Hafter.
    + by injection Hnext as <- <- <- <-.
    + apply enter_settled in Hnext as (? & _ & ? & _); [done| |done].
      rewrite Hcalls. by apply (after_keys_primed _ it).
    + by injection Hnext as <- <- <- <-.
  - injection Hnext as <- <- <- <-. split; [exact Hlog|]. exact Hsusp.
  - by injection Hnext as <- <- <- <-.
Qed.

End TokenProperties.

(** C3, as the code has it.  Take any state a generator can be in and
    resume it.  The first call of the pass carries the token the state held
    at the start, and every follow-up call was made after a truncated
    response and carries its next token.  If the generator yields a key or
    raises, the state holds exactly the token the most recent call carried,
    so that it has a token if and only if the page the pass left last was
    truncated: the token of a truncated page is stored only once the
    generator is resumed past the last key of that page.  If the pass
    completes, the most recent response was not truncated and the state
    holds no token; the token is deleted nowhere else. *)
Theorem token_follows_completed_pages
    (re_match : string -> string -> option match_object)
    (self : S3GlobReaderDataConnector) (asset_config : AssetConfig.t)
    (iterator_dict0 : gmap string string)
    (responses : list list_objects_v2_response)
    (g : generator) (iterator_dict : gmap string string) (s3 : s3_client)
    (sig : signal) (g' : generator) (iterator_dict' : gmap string string)
    (s3' : s3_client) :
  reachable re_match self asset_config iterator_dict0 responses
    g iterator_dict s3 ->
  g ≠ Finished ->
  _get_asset_options_next re_match self asset_config g iterator_dict s3
  = (sig, g', iterator_dict', s3') ->
  calls_carry_token (iterator_dict0 !! token_key) (calls s3')
  ∧ settled (iterator_dict0 !! token_key) sig iterator_dict' s3'.
Proof.
  intros Hreach Hg Hnext.
  destruct (reachable_invariant re_match self asset_config _ _ responses
              eq_refl _ _ _ Hreach) as [Hlog Hsusp].
  destruct g as [|asset_options [|key rest]|]; [| | |done];
    cbn [_get_asset_options_next] in Hnext.
  - destruct Hsusp as [Hcalls Htoken]. rewrite Hcalls in Hnext.
    by apply (enter_settled _ _ _ (iterator_dict0 !! token_key)) in Hnext
      as (? & ? & _).
  - destruct Hsusp as (query & older & Hcalls & Htoken).
    destruct (after_keys asset_options iterator_dict)
      as [e|[[] iterator_dict1]] eqn:Hafter.
    + injection Hnext as <- <- <- <-. split; [exact Hlog|].
      by eapply settled_on_last_call.
    + apply (enter_settled _ _ _ (iterator_dict0 !! token_key)) in Hnext
        as (? & ? & _); [done| |done].
      rewrite Hcalls. by apply (after_keys_primed _ _ iterator_dict).
    + injection Hnext as <- <- <- <-. split; [exact Hlog|].
      destruct (after_keys_completed _ _ _ Hafter) as [Hnone Htr].
      split; [exact Hnone|].
      unfold last_response_truncated. by rewrite Hcalls.
  - injection Hnext as <- <- <- <-. split; [exact Hlog|].
    destruct Hsusp as (query & older & Hcalls & Htoken).
    by eapply settled_on_last_call.
Qed.

Lemma token_follows_completed_pages_witness :
  let s3' :=
    {| pending := [Sample.page2];
       calls := [(build_query_options Sample.connector Sample.files ∅,
                  Some Sample.page1)] |} in
  calls_carry_token None (calls s3') ∧ settled None (Yield "a") ∅ s3'.
Proof.
  intros s3'.
  change None with ((∅ : gmap string string) !! token_key).
  apply (token_follows_completed_pages Sample.re_match Sample.connector
           Sample.files ∅ [Sample.page1; Sample.page2]
           Created ∅ (Sample.client [Sample.page1; Sample.page2])
           (Yield "a") (Suspended Sample.page1 ["b"]) ∅ s3').
  - apply reachable_created.
  - discriminate.
  - reflexivity.
Defined.

(** C3, as it is worded, fails while a pass is suspended on a page.  After
    the first [next()] the response was truncated and the state has no
    token yet; after the third, the last response was not truncated and the
    state still holds the token of the first page. *)
Lemma token_tracks_truncation_counterexample :
  (∃ s3,
      _get_asset_options_next Sample.re_match Sample.connector Sample.files
        Created ∅ (Sample.client [Sample.page1; Sample.page2])
      = (Yield "a", Suspended Sample.page1 ["b"], ∅, s3)
      ∧ last_response_truncated s3 = true
      ∧ ¬ token_tracks_truncation ∅ s3)
  ∧ (∃ iterator_dict s3,
        reachable Sample.re_match Sample.connector Sample.files ∅
          [Sample.page1; Sample.page2]
          (Suspended Sample.page2 []) iterator_dict s3
        ∧ iterator_dict !! token_key = Some "t1"
        ∧ last_response_truncated s3 = false
        ∧ ¬ token_tracks_truncation iterator_dict s3).
Proof.
  split.
  - eexists. split; [reflexivity|]. split; [reflexivity|].
    intros [_ Hback]. by destruct (Hback eq_refl).
  - exists {[token_key := "t1"]}.
    exists {| pending := [];
              calls := [(build_query_options Sample.connector Sample.files
                           {[token_key := "t1"]}, Some Sample.page2);
                        (build_query_options Sample.connector Sample.files ∅,
                         Some Sample.page1)] |}.
    split; [|split; [reflexivity|split; [reflexivity|]]].
    + eapply reachable_next;
        [eapply reachable_next;
           [eapply reachable_next; [apply reachable_created | reflexivity]
           | reflexivity]
        | reflexivity].
    + intros [Hforth _]. specialize (Hforth ltac:(by eexists)).
      discriminate Hforth.
Qed.

(** ** Batch descriptors *)

Lemma deref_insert (h : heap) (l : loc) (d : pydict) :
  deref (<[l := d]> h) l = d.
Proof. unfold deref. by rewrite lookup_insert_eq. Qed.

Section BuilderProperties.

Variable self : S3GlobReaderDataConnector.
Variables (h : heap) (key : string) (asset_config : AssetConfig.t).
Variables (reader_method : option string) (reader_options : option pydict).
Variable limit : pyval.

(** The descriptor, entry by entry: one case for each way through the
    conditionals of the builder. *)
Ltac descriptor_cases :=
  unfold _build_batch_kwargs_from_key, S3BatchKwargs; cbn [fst];
  destruct (truthy limit);
  destruct reader_method;
  destruct (AssetConfig.reader_method asset_config) as [m|];
  try destruct (truthy (VStr m));
  destruct (_reader_method self);
  by simplify_map_eq.

Lemma built_reader_options_ref :
  (_build_batch_kwargs_from_key self h key asset_config reader_method
     reader_options limit).1 !! "reader_options"
  = Some (VRef (_reader_options self)).
Proof. descriptor_cases. Qed.

Lemma built_s3 :
  (_build_batch_kwargs_from_key self h key asset_config reader_method
     reader_options limit).1 !! "s3"
  = Some (VStr ("s3a://" +:+ _bucket self +:+ "/" +:+ key)).
Proof. descriptor_cases. Qed.

Lemma built_reader_method :
  (_build_batch_kwargs_from_key self h key asset_config reader_method
     reader_options limit).1 !! "reader_method"
  = VStr <$> preferred_reader_method (_reader_method self)
               (AssetConfig.reader_method asset_config) reader_method.
Proof. unfold preferred_reader_method. descriptor_cases. Qed.

Lemma built_limit :
  (_build_batch_kwargs_from_key self h key asset_config reader_method
     reader_options limit).1 !! "limit"
  = if truthy limit then Some limit else None.
Proof. descriptor_cases. Qed.

(** What the builder leaves in the connector's mapping. *)
Lemma built_heap :
  deref
    (_build_batch_kwargs_from_key self h key asset_config reader_method
       reader_options limit).2
    (_reader_options self)
  = merged_reader_options (deref h (_reader_options self))
      (AssetConfig.reader_options asset_config) reader_options.
Proof.
  unfold _build_batch_kwargs_from_key, merged_reader_options, dict_update.
  cbn [snd].
  destruct (AssetConfig.reader_options asset_config) as [d|];
    [destruct (decide (d = ∅)) as [->|]|];
    destruct reader_options as [d'|]; cbv [default from_option id];
    rewrite ?deref_insert, ?(left_id_L ∅ (∪)); reflexivity.
Qed.

(** The builder writes nowhere else. *)
Lemma built_heap_elsewhere (l : loc) :
  l ≠ _reader_options self ->
  (_build_batch_kwargs_from_key self h key asset_config reader_method
     reader_options limit).2 !! l
  = h !! l.
Proof.
  intros Hl. unfold _build_batch_kwargs_from_key. cbn [snd].
  destruct (AssetConfig.reader_options asset_config) as [d|];
    [destruct (decide (d = ∅))|];
    destruct reader_options; by rewrite ?lookup_insert_ne.
Qed.

End BuilderProperties.

Lemma merged_reader_options_lookup (connector_level : pydict)
    (asset_level call_level : option pydict) (k : string) :
  merged_reader_options connector_level asset_level call_level !! k
  = match default ∅ call_level !! k with
    | Some v => Some v
    | None =>
        match default ∅ asset_level !! k with
        | Some v => Some v
        | None => connector_level !! k
        end
    end.
Proof.
  unfold merged_reader_options. rewrite !lookup_union.
  destruct (default ∅ call_level !! k), (default ∅ asset_level !! k),
    (connector_level !! k); reflexivity.
Qed.

(** C4. The [reader_options] of a descriptor, read when the builder returns,
    is the mapping the connector held at the call, updated key by key with
    the asset's [reader_options] and then with those of the call; with
    [sep] set to a comma by the connector, to a tilde by the asset and
    nothing by the call, the descriptor has the tilde. *)
Theorem reader_options_merge_precedence
    (self : S3GlobReaderDataConnector) (h : heap) (key : string)
    (asset_config : AssetConfig.t) (reader_method : option string)
    (reader_options : option pydict) (limit : pyval) :
  let built :=
    _build_batch_kwargs_from_key self h key asset_config reader_method
      reader_options limit in
  let connector_level := deref h (_reader_options self) in
  let asset_level := AssetConfig.reader_options asset_config in
  descriptor_reader_options built.2 built.1
  = merged_reader_options connector_level asset_level reader_options
  ∧ (∀ k,
       descriptor_reader_options built.2 built.1 !! k
       = match default ∅ reader_options !! k with
         | Some v => Some v
         | None =>
             match default ∅ asset_level !! k with
             | Some v => Some v
             | None => connector_level !! k
             end
         end)
  ∧ (connector_level = {["sep" := VStr ","]} ->
     asset_level = Some {["sep" := VStr "~"]} ->
     reader_options = Some ∅ ->
     descriptor_reader_options built.2 built.1 !! "sep" = Some (VStr "~")).
Proof.
  intros built connector_level asset_level.
  assert (Hmerge : descriptor_reader_options built.2 built.1
                   = merged_reader_options connector_level asset_level
                       reader_options).
  { unfold descriptor_reader_options, built.
    rewrite built_reader_options_ref. apply built_heap. }
  split; [exact Hmerge|]. split.
  - intros k. rewrite Hmerge. apply merged_reader_options_lookup.
  - intros Hc Ha Ho. rewrite Hmerge, Hc, Ha, Ho. reflexivity.
Qed.

Lemma reader_options_merge_precedence_witness :
  let built :=
    _build_batch_kwargs_from_key Sample.connector Sample.heap0
      "access_logs/2019-01.csv.gz" Sample.tilde_separated None (Some ∅)
      VNone in
  descriptor_reader_options built.2 built.1 !! "sep" = Some (VStr "~").
Proof.
  intros built.
  apply (reader_options_merge_precedence Sample.connector Sample.heap0
           "access_logs/2019-01.csv.gz" Sample.tilde_separated None (Some ∅)
           VNone); reflexivity.
Defined.

(** C10, on the code.  The descriptor refers to the connector's own mapping
    and the builder updates that mapping in place: after a descriptor was
    built for an asset that sets [sep] to a tilde, the connector holds the
    tilde, and a descriptor built next for an asset without reader options
    has it too. *)
Theorem builder_updates_connector_reader_options :
  let r := _reader_options Sample.connector in
  let first :=
    _build_batch_kwargs_from_key Sample.connector Sample.heap0
      "access_logs/2019-01.csv.gz" Sample.tilde_separated None None VNone in
  let second :=
    _build_batch_kwargs_from_key Sample.connector first.2
      "logs/2020.csv" Sample.files None None VNone in
  deref Sample.heap0 r = {["sep" := VStr ","]}
  ∧ first.1 !! "reader_options" = Some (VRef r)
  ∧ deref first.2 r = {["sep" := VStr "~"]}
  ∧ AssetConfig.reader_options Sample.files = None
  ∧ descriptor_reader_options second.2 second.1 = {["sep" := VStr "~"]}.
Proof. cbv zeta. split_and!; reflexivity. Qed.

(** The builder itself gives the call's reader method the first place, then
    the asset's when it is not empty, then the connector's. *)
Lemma builder_reader_method_precedence
    (self : S3GlobReaderDataConnector) (h : heap) (key : string)
    (asset_config : AssetConfig.t) (reader_method : option string)
    (reader_options : option pydict) (limit : pyval) :
  (_build_batch_kwargs_from_key self h key asset_config reader_method
     reader_options limit).1 !! "reader_method"
  = VStr <$> preferred_reader_method (_reader_method self)
               (AssetConfig.reader_method asset_config) reader_method.
Proof. apply built_reader_method. Qed.

(** The sequence of descriptors of an asset does not depend on the reader
    method it was asked with. *)
Lemma asset_iterator_ignores_reader_method
    (re_match : string -> string -> option match_object)
    (self : S3GlobReaderDataConnector) (asset_config : AssetConfig.t)
    (iterator_dict : gmap string string)
    (reader_method reader_method' : option string)
    (reader_options : option pydict) (limit : pyval) (h : heap)
    (s3 : s3_client) :
  _build_asset_iterator re_match self asset_config iterator_dict
    reader_method reader_options limit h s3
  = _build_asset_iterator re_match self asset_config iterator_dict
      reader_method' reader_options limit h s3.
Proof. reflexivity. Qed.

(** C9, on the code.  A request for [parquet] on a connector configured for
    [csv]: the descriptor of the requested partition and the descriptors of
    the lazy sequence all say [csv]. *)
Theorem call_level_reader_method_is_dropped
    (yield_batch_kwargs : inherited_method) :
  let s3 := Sample.client [Sample.page [("logs/2020.csv", 10)] None] in
  let request :=
    {| BatchParameters.data_asset_name := Some "files";
       BatchParameters.partition_id := Some "2020.csv";
       BatchParameters.reader_method := Some "parquet";
       BatchParameters.reader_options := None;
       BatchParameters.limit := VNone |} in
  (∃ bk,
      (_build_batch_kwargs Sample.re_match Sample.clock
         Sample.process_batch_definition yield_batch_kwargs Sample.connector
         request Sample.heap0 s3).1.1.1.1
      = inr (Descriptor bk)
      ∧ bk !! "s3" = Some (VStr "s3a://my_bucket/logs/2020.csv")
      ∧ bk !! "reader_method" = Some (VStr "csv"))
  ∧ (∃ bk,
        (_get_iterator Sample.re_match Sample.connector "files"
           (Some "parquet") None VNone Sample.heap0 s3).1.1.1
        = (None, [bk])
        ∧ bk !! "s3" = Some (VStr "s3a://my_bucket/logs/2020.csv")
        ∧ bk !! "reader_method" = Some (VStr "csv")).
Proof.
  cbv zeta. split; eexists; (split; [vm_compute; reflexivity|]);
    split; reflexivity.
Qed.

(** ** Scanning for a partition *)

Section ScanProperties.

Variable re_match : string -> string -> option match_object.
Variable clock : nat -> string.
Variable self : S3GlobReaderDataConnector.
Variable asset_config : AssetConfig.t.
Variable partition_id : string.
Variable reader_options : option pydict.

Lemma same_limit_refl (limit : pyval) : same_limit limit limit.
Proof. by split. Qed.

Lemma same_limit_trans (l1 l2 l3 : pyval) :
  same_limit l1 l2 -> same_limit l2 l3 -> same_limit l1 l3.
Proof.
  intros [Ht1 He1] [Ht2 He2]. split; [congruence|].
  intros Ht. rewrite He1 by done. apply He2. congruence.
Qed.

Lemma built_same_limit (h h' : heap) (key : string)
    (reader_method : option string) (limit limit' : pyval) :
  same_limit limit limit' ->
  (_build_batch_kwargs_from_key self h key asset_config reader_method
     reader_options limit).1
  = (_build_batch_kwargs_from_key self h' key asset_config reader_method
       reader_options limit').1.
Proof.
  intros [Ht He]. unfold _build_batch_kwargs_from_key. cbn [fst].
  rewrite <- Ht. destruct (truthy limit); [by rewrite He|reflexivity].
Qed.

Lemma built_limit_same (h : heap) (key : string)
    (reader_method : option string) (limit : pyval) :
  same_limit limit
    (default VNone
       ((_build_batch_kwargs_from_key self h key asset_config reader_method
           reader_options limit).1 !! "limit")).
Proof.
  rewrite built_limit. unfold same_limit.
  destruct (truthy limit) eqn:Ht; cbn; by rewrite ?Ht.
Qed.

Lemma scan_step_skip (key : string) (h : heap)
    (batch_kwargs : option pydict) (n : nat) :
  ¬ resolves_to re_match clock asset_config partition_id n key ->
  scan_body re_match clock self asset_config partition_id reader_options
    key (h, batch_kwargs, n) = (None, (h, batch_kwargs, S n)).
Proof.
  intros Hno. unfold scan_body. by rewrite decide_False.
Qed.

Lemma scan_step_match (key : string) (h : heap) (d : pydict) (n : nat) :
  resolves_to re_match clock asset_config partition_id n key ->
  let built :=
    _build_batch_kwargs_from_key self h key asset_config None
      reader_options (default VNone (d !! "limit")) in
  scan_body re_match clock self asset_config partition_id reader_options
    key (h, Some d, n) = (None, (built.2, Some built.1, S n)).
Proof.
  intros Hyes built. unfold scan_body.
  rewrite decide_True by exact Hyes.
  fold built. by destruct built.
Qed.

(** Keys that do not resolve to the requested id leave the scan as it
    is. *)
Lemma scan_skips (keys : list string) (h : heap)
    (batch_kwargs : option pydict) (n : nat) :
  (∀ i key, keys !! i = Some key ->
            ¬ resolves_to re_match clock asset_config partition_id
                (n + i) key) ->
  for_keys
    (scan_body re_match clock self asset_config partition_id reader_options)
    keys (h, batch_kwargs, n)
  = (None, (h, batch_kwargs, (n + length keys)%nat)).
Proof.
  revert n. induction keys as [|key keys IH]; intros n Hno;
    cbn [for_keys length].
  - by rewrite Nat.add_0_r.
  - rewrite scan_step_skip.
    + rewrite IH, Nat.add_succ_r; [reflexivity|].
      intros i key' Hi.
      specialize (Hno (S i) key' Hi). by rewrite Nat.add_succ_r in Hno.
    + specialize (Hno O key eq_refl). by rewrite Nat.add_0_r in Hno.
Qed.

(** A scan that starts from a mapping goes through any keys without
    raising, and keeps the limit it started with. *)
Lemma scan_keeps_limit (keys : list string) (h : heap) (d : pydict)
    (n : nat) :
  ∃ h' d',
    for_keys
      (scan_body re_match clock self asset_config partition_id reader_options)
      keys (h, Some d, n)
    = (None, (h', Some d', (n + length keys)%nat))
    ∧ same_limit (default VNone (d !! "limit"))
        (default VNone (d' !! "limit")).
Proof.
  revert h d n. induction keys as [|key keys IH]; intros h d n;
    cbn [for_keys length].
  - exists h, d. rewrite Nat.add_0_r. split; [done|apply same_limit_refl].
  - destruct (decide (resolves_to re_match clock asset_config partition_id
                        n key)) as [Hyes|Hno].
    + rewrite scan_step_match by exact Hyes.
      match goal with
      | |- context [for_keys _ keys (?h1, Some ?bk, _)] =>
          destruct (IH h1 bk (S n)) as (h' & d' & Hrun & Hlimit)
      end.
      exists h', d'. rewrite Hrun, Nat.add_succ_r. split; [done|].
      eapply same_limit_trans; [|exact Hlimit].
      apply built_limit_same.
    + rewrite scan_step_skip by exact Hno.
      destruct (IH h d (S n)) as (h' & d' & Hrun & Hlimit).
      exists h', d'. by rewrite Hrun, Nat.add_succ_r.
Qed.

(** The scan ends with the descriptor of the last key that resolves to
    the requested id. *)
Lemma scan_last_match (before after : list string) (key : string)
    (h : heap) (d : pydict) (n : nat) :
  resolves_to re_match clock asset_config partition_id
    (n + length before) key ->
  (∀ i key', after !! i = Some key' ->
             ¬ resolves_to re_match clock asset_config partition_id
                 (S (n + length before) + i) key') ->
  ∃ h',
    for_keys
      (scan_body re_match clock self asset_config partition_id reader_options)
      (before ++ key :: after) (h, Some d, n)
    = (None,
       (h',
        Some (_build_batch_kwargs_from_key self h key asset_config None
                reader_options (default VNone (d !! "limit"))).1,
        (n + length (before ++ key :: after))%nat)).
Proof.
  intros Hkey Hafter.
  destruct (scan_keeps_limit before h d n) as (h1 & d1 & Hrun1 & Hlimit).
  rewrite for_keys_app, Hrun1. cbn [for_keys].
  rewrite scan_step_match by exact Hkey.
  rewrite scan_skips by exact Hafter.
  eexists. rewrite length_app. cbn [length].
  replace (S (n + length before) + length after)%nat
    with (n + (length before + S (length after)))%nat by lia.
  do 4 f_equal.
  symmetry. by apply built_same_limit.
Qed.

End ScanProperties.

Section BuildBatchKwargsProperties.

Variable re_match : string -> string -> option match_object.
Variable clock : nat -> string.
Variable process_batch_definition :
  option string -> pydict -> pyval -> option pydict.
Variable yield_batch_kwargs : inherited_method.
Variable self : S3GlobReaderDataConnector.
Variable batch_parameters : BatchParameters.t.
Variable h : heap.
Variables (data_asset_name partition_id : string).
Variable asset_config : AssetConfig.t.
Variable pages : list list_objects_v2_response.
Variable last : list_objects_v2_response.
Variable log : list (query_options * option list_objects_v2_response).

Hypothesis Hname :
  BatchParameters.data_asset_name batch_parameters = Some data_asset_name.
Hypothesis Hid :
  BatchParameters.partition_id batch_parameters = Some partition_id.
Hypothesis Hid_given : partition_id ≠ "".
Hypothesis Hasset : _assets self !! data_asset_name = Some asset_config.
Hypothesis Hpages :
  Forall (λ p, truncated_with_token p
               ∧ has_required_collection asset_config p) pages.
Hypothesis Hlast : IsTruncated last = false.
Hypothesis Hshape : has_required_collection asset_config last.

Lemma partition_id_truthy : truthy (VStr partition_id) = true.
Proof.
  cbn. apply negb_true_iff, String.eqb_neq. exact Hid_given.
Qed.

(** The scan of a request, once the flat loop over its keys is known. *)
Lemma build_batch_kwargs_scan (batch_kwargs : option pydict)
    (h' : heap) (found : option pydict) (n : nat) :
  processed_batch_definition process_batch_definition self
    batch_parameters h = batch_kwargs ->
  for_keys
    (scan_body re_match clock self asset_config partition_id
       (BatchParameters.reader_options batch_parameters))
    (concat (yields_of re_match asset_config <$> (pages ++ [last])))
    (h, batch_kwargs, O)
  = (None, (h', found, n)) ->
  ∃ self' s3',
    _build_batch_kwargs re_match clock process_batch_definition
      yield_batch_kwargs self batch_parameters h
      {| pending := pages ++ [last]; calls := log |}
    = (match found with
       | Some bk => inr (Descriptor bk)
       | None =>
           inl (BatchKwargsError
                  ("Unable to identify partition " +:+ partition_id
                   +:+ " for asset " +:+ data_asset_name)
                  (ctx_dict (<[partition_id := partition_id]>
                               {[data_asset_name := data_asset_name]})))
       end,
       match found with
       | Some bk => set_batch_kwargs self' bk
       | None => self'
       end, h', s3', popped batch_parameters)
    ∧ pending s3' = []
    ∧ length (calls s3') = (length (pages ++ [last]) + length log)%nat.
Proof.
  intros Hengine Hkeys.
  destruct (for_get_asset_options_complete re_match self asset_config _
              pages last
              (default ∅ (_iterators self !! data_asset_name)) log
              _ _ Hpages Hlast Hshape Hkeys)
    as (queries & Hrun & Hlen & _).
  unfold _build_batch_kwargs.
  rewrite Hname, Hid, partition_id_truthy, Hasset.
  change (processed_batch_definition process_batch_definition self
            (popped batch_parameters) h)
    with (processed_batch_definition process_batch_definition self
            batch_parameters h).
  change (BatchParameters.reader_options (popped batch_parameters))
    with (BatchParameters.reader_options batch_parameters).
  rewrite Hengine.
  cbn [pending calls]. rewrite Hrun.
  eexists _, _.
  split; [destruct found; reflexivity|].
  split; [reflexivity|].
  cbn [calls]. rewrite length_app, length_reverse, length_zip, length_fmap.
  lia.
Qed.

(** When no key resolves to the requested id, the request gets what the
    engine answered, or the error if the engine answered [None]. *)
Lemma no_match_returns_engine_answer (batch_kwargs : option pydict) :
  processed_batch_definition process_batch_definition self
    batch_parameters h = batch_kwargs ->
  (∀ i key,
      concat (yields_of re_match asset_config <$> (pages ++ [last])) !! i
      = Some key ->
      ¬ resolves_to re_match clock asset_config partition_id i key) ->
  ∃ self' s3',
    _build_batch_kwargs re_match clock process_batch_definition
      yield_batch_kwargs self batch_parameters h
      {| pending := pages ++ [last]; calls := log |}
    = (match batch_kwargs with
       | Some bk => inr (Descriptor bk)
       | None =>
           inl (BatchKwargsError
                  ("Unable to identify partition " +:+ partition_id
                   +:+ " for asset " +:+ data_asset_name)
                  (ctx_dict (<[partition_id := partition_id]>
                               {[data_asset_name := data_asset_name]})))
       end,
       match batch_kwargs with
       | Some bk => set_batch_kwargs self' bk
       | None => self'
       end, h, s3', popped batch_parameters).
Proof.
  intros Hengine Hno.
  destruct (build_batch_kwargs_scan batch_kwargs h batch_kwargs _ Hengine
              (scan_skips _ _ _ _ _ _ _ _ _ O Hno))
    as (self' & s3' & Hrun & _).
  by exists self', s3'.
Qed.

End BuildBatchKwargsProperties.

(** C6. A request for a partition id on a registered asset, the engine
    having answered with a mapping: the scan requests every page of the
    listing, and the descriptor returned is the one built from the last key,
    in scan order, that resolves to the requested id, whatever the number of
    keys before it that resolve to it too. *)
Theorem scan_returns_last_match
    (re_match : string -> string -> option match_object)
    (clock : nat -> string)
    (process_batch_definition :
       option string -> pydict -> pyval -> option pydict)
    (yield_batch_kwargs : inherited_method)
    (self : S3GlobReaderDataConnector)
    (batch_parameters : BatchParameters.t) (h : heap)
    (data_asset_name partition_id : string) (asset_config : AssetConfig.t)
    (pages : list list_objects_v2_response)
    (last : list_objects_v2_response)
    (log : list (query_options * option list_objects_v2_response))
    (d : pydict) (before after : list string) (key : string) :
  BatchParameters.data_asset_name batch_parameters = Some data_asset_name ->
  BatchParameters.partition_id batch_parameters = Some partition_id ->
  partition_id ≠ "" ->
  _assets self !! data_asset_name = Some asset_config ->
  processed_batch_definition process_batch_definition self batch_parameters h
  = Some d ->
  Forall (λ p, truncated_with_token p
               ∧ has_required_collection asset_config p) pages ->
  IsTruncated last = false ->
  has_required_collection asset_config last ->
  concat (yields_of re_match asset_config <$> (pages ++ [last]))
  = before ++ key :: after ->
  resolves_to re_match clock asset_config partition_id (length before) key ->
  (∀ i key', after !! i = Some key' ->
             ¬ resolves_to re_match clock asset_config partition_id
                 (S (length before) + i) key') ->
  let bk :=
    (_build_batch_kwargs_from_key self h key asset_config None
       (BatchParameters.reader_options batch_parameters)
       (default VNone (d !! "limit"))).1 in
  ∃ self' h' s3',
    _build_batch_kwargs re_match clock process_batch_definition
      yield_batch_kwargs self batch_parameters h
      {| pending := pages ++ [last]; calls := log |}
    = (inr (Descriptor bk), self', h', s3', popped batch_parameters)
    ∧ batch_kwargs_attr self' = Some bk
    ∧ pending s3' = []
    ∧ length (calls s3') = (length (pages ++ [last]) + length log)%nat.
Proof.
  intros Hname Hid Hgiven Hasset Hengine Hpages Hlast Hshape Hkeys Hkey
    Hafter bk.
  destruct (scan_last_match re_match clock self asset_config partition_id
              (BatchParameters.reader_options batch_parameters)
              before after key h d O Hkey Hafter) as (h' & Hscan).
  rewrite <- Hkeys in Hscan.
  destruct (build_batch_kwargs_scan re_match clock process_batch_definition
              yield_batch_kwargs self batch_parameters h data_asset_name
              partition_id asset_config pages last log Hname Hid Hgiven
              Hasset Hpages Hlast Hshape (Some d) h' (Some bk) _ Hengine
              Hscan)
    as (self' & s3' & Hrun & Hpending & Hcalls).
  by exists (set_batch_kwargs self' bk), h', s3'.
Qed.

Lemma scan_returns_last_match_witness :
  let request :=
    {| BatchParameters.data_asset_name := Some "by_year";
       BatchParameters.partition_id := Some "2020";
       BatchParameters.reader_method := None;
       BatchParameters.reader_options := None;
       BatchParameters.limit := VInt 5 |} in
  let first := Sample.page [("logs/2020.csv", 10); ("logs/2019.csv", 10)]
                 (Some "t1") in
  let second := Sample.page [("logs/2020.csv.bak", 4); ("logs/readme", 1)]
                  None in
  ∃ bk self' h' s3',
    _build_batch_kwargs Sample.re_match Sample.clock
      Sample.process_batch_definition Base.yield_batch_kwargs
      Sample.connector request Sample.heap0 (Sample.client [first; second])
    = (inr (Descriptor bk), self', h', s3', popped request)
    ∧ bk !! "s3" = Some (VStr "s3a://my_bucket/logs/2020.csv.bak")
    ∧ bk !! "limit" = Some (VInt 5)
    ∧ pending s3' = []
    ∧ length (calls s3') = 2%nat.
Proof.
  intros request first second.
  destruct (scan_returns_last_match Sample.re_match Sample.clock
              Sample.process_batch_definition Base.yield_batch_kwargs
              Sample.connector request
              Sample.heap0 "by_year" "2020" Sample.by_year
              [first] second [] {["limit" := VInt 5]}
              ["logs/2020.csv"; "logs/2019.csv"] ["logs/readme"]
              "logs/2020.csv.bak")
    as (self' & h' & s3' & Hrun & _ & Hpending & Hcalls).
  - reflexivity.
  - reflexivity.
  - discriminate.
  - reflexivity.
  - reflexivity.
  - constructor; [|constructor].
    split; [split; [reflexivity | by eexists] | by eexists].
  - reflexivity.
  - by eexists.
  - reflexivity.
  - reflexivity.
  - intros [|i] key' Hi; [|discriminate Hi].
    injection Hi as <-. discriminate.
  - eexists _, self', h', s3'.
    split; [exact Hrun|]. split; [reflexivity|]. split; [reflexivity|].
    split; [exact Hpending | exact Hcalls].
Defined.

(** C5, on the code.  A request for a partition id that no key of the
    listing resolves to: the variable tested after the scan still holds what
    the engine answered, so the request returns that mapping, which names no
    object; the error is raised only when the engine answered [None]. *)
Theorem no_match_returns_engine_answer_example
    (yield_batch_kwargs : inherited_method) :
  let s3 := Sample.client [Sample.page [("logs/2020.csv", 10)] None] in
  let request :=
    {| BatchParameters.data_asset_name := Some "files";
       BatchParameters.partition_id := Some "1999.csv";
       BatchParameters.reader_method := None;
       BatchParameters.reader_options := None;
       BatchParameters.limit := VNone |} in
  _partitioner Sample.re_match (Sample.clock 0) "logs/2020.csv" Sample.files
  = VStr "2020.csv"
  ∧ processed_batch_definition Sample.process_batch_definition
      Sample.connector request Sample.heap0 = Some ∅
  ∧ (_build_batch_kwargs Sample.re_match Sample.clock
       Sample.process_batch_definition yield_batch_kwargs Sample.connector
       request Sample.heap0 s3).1.1.1.1
    = inr (Descriptor ∅)
  ∧ (_build_batch_kwargs Sample.re_match Sample.clock (λ _ _ _, None)
       yield_batch_kwargs Sample.connector request Sample.heap0 s3).1.1.1.1
    = inl (BatchKwargsError
             "Unable to identify partition 1999.csv for asset files"
             (ctx_dict (<["1999.csv" := "1999.csv"]> {["files" := "files"]}))).
Proof. cbv zeta. split_and!; vm_compute; reflexivity. Qed.

(** ** The shape of a response *)

(** C7. For an asset with [directory_assets], a response without
    [CommonPrefixes] raises a [BatchKwargsError] that carries the asset
    configuration, and a response whose common prefixes are [x/] and [y/],
    both kept by the regex filter, yields these two strings; for an asset
    without [directory_assets], a response without [Contents] raises a
    [BatchKwargsError] that carries the asset configuration. *)
Theorem listing_shape_enforced
    (re_match : string -> string -> option match_object)
    (self : S3GlobReaderDataConnector) (asset_config : AssetConfig.t)
    (asset_options : list_objects_v2_response)
    (responses : list list_objects_v2_response)
    (iterator_dict : gmap string string)
    (log : list (query_options * option list_objects_v2_response)) :
  let s3 := {| pending := asset_options :: responses; calls := log |} in
  let s3' :=
    {| pending := responses;
       calls := (build_query_options self asset_config iterator_dict,
                 Some asset_options) :: log |} in
  (get (AssetConfig.directory_assets asset_config) false = true ->
   CommonPrefixes asset_options = None ->
   ∃ message,
     let e := BatchKwargsError message
                (ctx_directory asset_config (Contents asset_options)) in
     _get_asset_options_next re_match self asset_config Created
       iterator_dict s3
     = (Raise e, Finished, iterator_dict, s3')
     ∧ for_get_asset_options re_match self asset_config collect
         (pending s3) iterator_dict (calls s3) []
       = (Some e, [], iterator_dict, s3'))
  ∧ (get (AssetConfig.directory_assets asset_config) false = true ->
     CommonPrefixes asset_options
     = Some [{| item_Prefix := "x/" |}; {| item_Prefix := "y/" |}] ->
     regex_keeps re_match asset_config "x/" ->
     regex_keeps re_match asset_config "y/" ->
     surviving_keys re_match asset_config asset_options = inr ["x/"; "y/"]
     ∧ _get_asset_options_next re_match self asset_config Created
         iterator_dict s3
       = (Yield "x/", Suspended asset_options ["y/"], iterator_dict, s3')
     ∧ (IsTruncated asset_options = false ->
        for_get_asset_options re_match self asset_config collect
          (pending s3) iterator_dict (calls s3) []
        = (None, ["x/"; "y/"], delete token_key iterator_dict, s3')))
  ∧ (get (AssetConfig.directory_assets asset_config) false = false ->
     Contents asset_options = None ->
     ∃ message,
       let e := BatchKwargsError message
                  (ctx_files asset_config (CommonPrefixes asset_options)) in
       _get_asset_options_next re_match self asset_config Created
         iterator_dict s3
       = (Raise e, Finished, iterator_dict, s3')
       ∧ for_get_asset_options re_match self asset_config collect
           (pending s3) iterator_dict (calls s3) []
         = (Some e, [], iterator_dict, s3')).
Proof.
  intros s3 s3'. split; [|split].
  - intros Hdir Hnone. eexists. cbv zeta.
    cbn [_get_asset_options_next enter for_get_asset_options s3 pending calls].
    unfold surviving_keys, listed_keys. rewrite Hdir, Hnone. done.
  - intros Hdir Hsome Hx Hy.
    assert (Hkeys : surviving_keys re_match asset_config asset_options
                    = inr ["x/"; "y/"]).
    { unfold surviving_keys, listed_keys. rewrite Hdir, Hsome.
      cbn [fmap list_fmap item_Prefix].
      rewrite filter_cons_True by exact Hx.
      rewrite filter_cons_True by exact Hy.
      reflexivity. }
    split; [exact Hkeys|]. split.
    + cbn [_get_asset_options_next enter s3 pending calls].
      by rewrite Hkeys.
    + intros Htr.
      cbn [for_get_asset_options s3 pending calls].
      rewrite Hkeys. cbn [for_keys collect app].
      unfold after_keys. by rewrite Htr.
  - intros Hdir Hnone. eexists. cbv zeta.
    cbn [_get_asset_options_next enter for_get_asset_options s3 pending calls].
    unfold surviving_keys, listed_keys. rewrite Hdir, Hnone. done.
Qed.

Lemma listing_shape_enforced_witness :
  let no_prefixes := Sample.page [("logs/2020.csv", 10)] None in
  let two_prefixes :=
    {| CommonPrefixes :=
         Some [{| item_Prefix := "x/" |}; {| item_Prefix := "y/" |}];
       Contents := None;
       IsTruncated := false;
       NextContinuationToken := None |} in
  (∃ message contents,
      (for_get_asset_options Sample.re_match Sample.connector
         Sample.directories collect [no_prefixes] ∅ [] []).1.1.1
      = Some (BatchKwargsError message
                (ctx_directory Sample.directories contents)))
  ∧ (for_get_asset_options Sample.re_match Sample.connector
       Sample.directories collect [two_prefixes] ∅ [] []).1.1
    = (None, ["x/"; "y/"])
  ∧ (∃ message common_prefixes,
        (for_get_asset_options Sample.re_match Sample.connector
           Sample.files collect [two_prefixes] ∅ [] []).1.1.1
        = Some (BatchKwargsError message
                  (ctx_files Sample.files common_prefixes))).
Proof.
  intros no_prefixes two_prefixes. split; [|split].
  - destruct (proj1 (listing_shape_enforced Sample.re_match Sample.connector
                       Sample.directories no_prefixes [] ∅ [])
                eq_refl eq_refl) as (message & _ & Hrun).
    exists message, (Contents no_prefixes).
    cbn [pending calls] in Hrun. by rewrite Hrun.
  - destruct (proj1 (proj2 (listing_shape_enforced Sample.re_match
                              Sample.connector Sample.directories
                              two_prefixes [] ∅ []))
                eq_refl eq_refl ltac:(by eexists) ltac:(by eexists))
      as (_ & _ & Hrun).
    cbn [pending calls] in Hrun. by rewrite (Hrun eq_refl).
  - destruct (proj2 (proj2 (listing_shape_enforced Sample.re_match
                              Sample.connector Sample.files
                              two_prefixes [] ∅ []))
                eq_refl eq_refl) as (message & _ & Hrun).
    exists message, (CommonPrefixes two_prefixes).
    cbn [pending calls] in Hrun. by rewrite Hrun.
Defined.

(** ** Keys of size zero *)

Section LoopInvariant.

Variable re_match : string -> string -> option match_object.
Variable self : S3GlobReaderDataConnector.
Variable asset_config : AssetConfig.t.
Context {A : Type}.
Variable body : string -> A -> option exn * A.
Variable P : A -> Prop.
Variable Q : string -> Prop.

Hypothesis body_keeps : ∀ key acc, Q key -> P acc -> P (body key acc).2.

Lemma for_keys_invariant (keys : list string) (acc : A) :
  Forall Q keys -> P acc -> P (for_keys body keys acc).2.
Proof.
  intros Hkeys. revert acc.
  induction Hkeys as [|key keys Hkey _ IH]; intros acc Hacc;
    cbn [for_keys]; [exact Hacc|].
  pose proof (body_keeps key acc Hkey Hacc) as Hstep.
  destruct (body key acc) as [[e|] acc']; [exact Hstep|].
  apply IH, Hstep.
Qed.

(** The loop body only ever sees keys that some response of the pass
    yields. *)
Lemma for_get_asset_options_invariant
    (responses : list list_objects_v2_response)
    (iterator_dict : gmap string string)
    (log : list (query_options * option list_objects_v2_response))
    (acc : A) :
  (∀ asset_options key,
      asset_options ∈ responses ->
      key ∈ yields_of re_match asset_config asset_options -> Q key) ->
  P acc ->
  P (for_get_asset_options re_match self asset_config body responses
       iterator_dict log acc).1.1.2.
Proof.
  revert iterator_dict log acc.
  induction responses as [|asset_options responses IH];
    intros iterator_dict log acc Hkeys Hacc;
    cbn [for_get_asset_options]; [exact Hacc|].
  pose proof (Hkeys asset_options) as Hhere.
  unfold yields_of in Hhere.
  destruct (surviving_keys re_match asset_config asset_options)
    as [e|keys]; [exact Hacc|].
  pose proof (for_keys_invariant keys acc) as Hpage.
  destruct (for_keys body keys acc) as [[e|] acc'].
  - apply Hpage; [|exact Hacc].
    apply Forall_forall. intros key Hkey. apply Hhere; [left|exact Hkey].
  - assert (Hacc' : P acc').
    { apply Hpage; [|exact Hacc].
      apply Forall_forall. intros key Hkey.
      apply Hhere; [left|exact Hkey]. }
    destruct (after_keys asset_options iterator_dict)
      as [e|[[] iterator_dict']]; [exact Hacc'| |exact Hacc'].
    apply IH; [|exact Hacc'].
    intros asset_options' key Hin. apply Hkeys. by right.
Qed.

End LoopInvariant.

Lemma yields_of_files
    (re_match : string -> string -> option match_object)
    (asset_config : AssetConfig.t)
    (asset_options : list_objects_v2_response) (key : string) :
  get (AssetConfig.directory_assets asset_config) false = false ->
  key ∈ yields_of re_match asset_config asset_options ->
  ∃ items item,
    Contents asset_options = Some items
    ∧ item ∈ items ∧ Key item = key ∧ 0 < Size item.
Proof.
  intros Hfiles. unfold yields_of, surviving_keys, listed_keys.
  rewrite Hfiles.
  destruct (Contents asset_options) as [items|]; [|by intros ?%elem_of_nil].
  intros [_ Hkey]%list_elem_of_filter.
  apply list_elem_of_fmap in Hkey as (item & -> & [Hsize Hitem]%list_elem_of_filter).
  by exists items, item.
Qed.

(** C8. For an asset without [directory_assets]: the keys a response yields
    are keys of entries of positive size, the entries of size zero being
    dropped before the regex filter; every descriptor of the sequence of the
    asset, and the descriptor of a requested partition when one is built,
    names such a key; contents [a] of size 0 and [b] of size 10 give the
    key [b] alone. *)
Theorem zero_size_keys_dropped
    (re_match : string -> string -> option match_object)
    (clock : nat -> string)
    (self : S3GlobReaderDataConnector) (asset_config : AssetConfig.t) :
  get (AssetConfig.directory_assets asset_config) false = false ->
  let names_sized_key (responses : list list_objects_v2_response)
        (bk : pydict) :=
    ∃ asset_options items item,
      asset_options ∈ responses
      ∧ Contents asset_options = Some items
      ∧ item ∈ items ∧ 0 < Size item
      ∧ bk !! "s3"
        = Some (VStr ("s3a://" +:+ _bucket self +:+ "/" +:+ Key item)) in
  (∀ asset_options key,
      key ∈ yields_of re_match asset_config asset_options ->
      ∃ items item,
        Contents asset_options = Some items
        ∧ item ∈ items ∧ Key item = key ∧ 0 < Size item)
  ∧ (∀ iterator_dict reader_method reader_options limit h s3 bk,
        bk ∈ (_build_asset_iterator re_match self asset_config
                iterator_dict reader_method reader_options limit h
                s3).1.1.2.2 ->
        names_sized_key (pending s3) bk)
  ∧ (∀ partition_id reader_options responses iterator_dict log h
       batch_kwargs bk,
        (for_get_asset_options re_match self asset_config
           (scan_body re_match clock self asset_config partition_id
              reader_options)
           responses iterator_dict log (h, batch_kwargs, O)).1.1.2.1.2
        = Some bk ->
        batch_kwargs = Some bk ∨ names_sized_key responses bk)
  ∧ (∀ asset_options,
        Contents asset_options
        = Some [{| Key := "a"; Size := 0 |}; {| Key := "b"; Size := 10 |}] ->
        listed_keys asset_config asset_options = inr ["b"]
        ∧ (regex_keeps re_match asset_config "b" ->
           surviving_keys re_match asset_config asset_options = inr ["b"])).
Proof.
  intros Hfiles names_sized_key.
  assert (Hsized : ∀ responses asset_options key,
             asset_options ∈ responses ->
             key ∈ yields_of re_match asset_config asset_options ->
             ∀ bk,
               bk !! "s3"
               = Some (VStr ("s3a://" +:+ _bucket self +:+ "/" +:+ key)) ->
               names_sized_key responses bk).
  { intros responses asset_options key Hin Hkey bk Hbk.
    destruct (yields_of_files _ _ _ _ Hfiles Hkey)
      as (items & item & Hitems & Hitem & <- & Hsize).
    by exists asset_options, items, item. }
  split; [|split; [|split]].
  - intros asset_options key. by apply yields_of_files.
  - intros iterator_dict reader_method reader_options limit h s3.
    apply Forall_forall. unfold _build_asset_iterator.
    apply (for_get_asset_options_invariant re_match self asset_config _
             (λ acc, Forall (names_sized_key (pending s3)) acc.2)
             (λ key, ∀ bk,
                bk !! "s3"
                = Some (VStr ("s3a://" +:+ _bucket self +:+ "/" +:+ key)) ->
                names_sized_key (pending s3) bk)).
    + intros key [h0 out] Hkey Hout. unfold yield_built. cbn [fst snd].
      pose proof (built_s3 self h0 key asset_config None reader_options limit)
        as Hs3.
      destruct (_build_batch_kwargs_from_key self h0 key asset_config None
                  reader_options limit) as [bk h1].
      cbn [fst snd] in *. apply Forall_app. split; [exact Hout|].
      constructor; [|constructor]. by apply Hkey.
    + intros asset_options key Hin Hkey. by apply (Hsized _ asset_options).
    + constructor.
  - intros partition_id reader_options responses iterator_dict log h
      batch_kwargs bk.
    pose proof (for_get_asset_options_invariant re_match self asset_config
                  (scan_body re_match clock self asset_config partition_id
                     reader_options)
                  (λ acc, ∀ bk, acc.1.2 = Some bk ->
                                batch_kwargs = Some bk
                                ∨ names_sized_key responses bk)
                  (λ key, ∀ bk,
                     bk !! "s3"
                     = Some (VStr ("s3a://" +:+ _bucket self +:+ "/"
                                   +:+ key)) ->
                     names_sized_key responses bk)) as Hinv.
    apply Hinv; clear Hinv.
    + intros key [[h0 found] n] Hkey Hfound bk0. unfold scan_body.
      destruct (decide _) as [_|_]; [|exact (Hfound bk0)].
      destruct found as [d|]; [|exact (Hfound bk0)].
      pose proof (built_s3 self h0 key asset_config None reader_options
                    (default VNone (d !! "limit"))) as Hs3.
      destruct (_build_batch_kwargs_from_key self h0 key asset_config None
                  reader_options (default VNone (d !! "limit")))
        as [bk1 h1].
      cbn [fst snd] in *. intros [= <-]. right. by apply Hkey.
    + intros asset_options key Hin Hkey. by apply (Hsized _ asset_options).
    + intros bk0 Hbk0. by left.
  - intros asset_options Hcontents.
    assert (Hlisted : listed_keys asset_config asset_options = inr ["b"]).
    { unfold listed_keys. rewrite Hfiles, Hcontents.
      rewrite filter_cons_False by (cbn; lia).
      rewrite filter_cons_True by (cbn; lia).
      reflexivity. }
    split; [exact Hlisted|].
    intros Hb. unfold surviving_keys. rewrite Hlisted.
    by rewrite filter_cons_True.
Qed.

Lemma zero_size_keys_dropped_witness :
  let asset_options :=
    Sample.page [("a", 0); ("b", 10)] None in
  listed_keys Sample.files asset_options = inr ["b"]
  ∧ surviving_keys Sample.re_match Sample.files asset_options = inr ["b"].
Proof.
  intros asset_options.
  destruct (zero_size_keys_dropped Sample.re_match Sample.clock
              Sample.connector Sample.files eq_refl)
    as (_ & _ & _ & Hexample).
  destruct (Hexample asset_options eq_refl) as [Hlisted Hsurviving].
  split; [exact Hlisted|]. apply Hsurviving. by eexists.
Defined.

(** * Further properties *)

(** ** Partition ids, once more *)

Lemma startswith_inv (key p : string) :
  startswith key p = true -> key = p +:+ slice_from (String.length p) key.
Proof.
  unfold startswith. revert key.
  induction p as [|c p IH]; intros key; simpl; [done|].
  destruct key as [|c' key]; simpl; [done|].
  destruct (Ascii.ascii_dec c c') as [->|_]; [|done].
  intros Hp.
  change (String c' key = String c' (p +:+ slice_from (String.length p) key)).
  f_equal. by apply IH.
Qed.

(** X1. Without [partition_regex], the partition id of a key that starts
    with the prefix of the asset gives the key back when the prefix is put in
    front of it; two such keys with the same id are the same key, whenever
    the ids were computed. *)
Theorem path_partition_id_round_trip
    (re_match : string -> string -> option match_object)
    (asset_config : AssetConfig.t) (now1 now2 key1 key2 : string) :
  AssetConfig.partition_regex asset_config = None ->
  startswith key1 (get (AssetConfig.prefix asset_config) "") = true ->
  startswith key2 (get (AssetConfig.prefix asset_config) "") = true ->
  (∃ id, _partitioner re_match now1 key1 asset_config = VStr id
         ∧ get (AssetConfig.prefix asset_config) "" +:+ id = key1)
  ∧ (_partitioner re_match now1 key1 asset_config
     = _partitioner re_match now2 key2 asset_config ->
     key1 = key2).
Proof.
  intros Hregex H1 H2. unfold _partitioner. rewrite Hregex, H1, H2.
  split.
  - eexists. split; [reflexivity|]. symmetry. by apply startswith_inv.
  - intros [= Hid].
    rewrite (startswith_inv _ _ H1), (startswith_inv _ _ H2). by rewrite Hid.
Qed.

Lemma path_partition_id_round_trip_witness :
  (∃ id, _partitioner Sample.re_match "T" "logs/2020.csv" Sample.files
         = VStr id
         ∧ "logs/" +:+ id = "logs/2020.csv")
  ∧ (_partitioner Sample.re_match "T" "logs/2020.csv" Sample.files
     = _partitioner Sample.re_match "U" "logs/2020.csv" Sample.files ->
     "logs/2020.csv" = "logs/2020.csv").
Proof.
  apply (path_partition_id_round_trip Sample.re_match Sample.files
           "T" "U" "logs/2020.csv" "logs/2020.csv"); reflexivity.
Defined.

(** X2. The partition id of a key does not depend on the time of the call
    when the key resolves without the clock ([partition_regex] absent, or
    matching with the group in range); in every other case it is the
    timestamp of the call followed by one of the two sentinel suffixes. *)
Theorem partition_id_stable_off_sentinels
    (re_match : string -> string -> option match_object)
    (asset_config : AssetConfig.t) (key : string) :
  (resolves_off_clock re_match asset_config key ->
   ∀ now1 now2,
     _partitioner re_match now1 key asset_config
     = _partitioner re_match now2 key asset_config)
  ∧ (¬ resolves_off_clock re_match asset_config key ->
     ∀ now,
       _partitioner re_match now key asset_config
       = VStr (now +:+ "__unmatched")
       ∨ _partitioner re_match now key asset_config
         = VStr (now +:+ "__no_match_group")).
Proof.
  unfold resolves_off_clock, _partitioner.
  destruct (AssetConfig.partition_regex asset_config) as [pattern|].
  - destruct (re_match pattern key) as [matches|].
    + destruct (group matches
                  (get (AssetConfig.match_group_id asset_config) 1))
        as [v|] eqn:Hgroup.
      * split; [done|]. intros Hno. destruct Hno. by exists matches.
      * split; [|by right].
        intros (matches' & [= <-] & Hsome). rewrite Hgroup in Hsome.
        by destruct Hsome.
    + split; [|by left]. by intros (matches & ? & _).
  - split; [done|]. intros Hno. by destruct Hno.
Qed.

Lemma partition_id_stable_off_sentinels_witness :
  _partitioner Sample.re_match "T" "logs/2020.csv" Sample.by_year
  = _partitioner Sample.re_match "U" "logs/2020.csv" Sample.by_year
  ∧ (_partitioner Sample.re_match "T" "logs/readme" Sample.by_year
     = VStr "T__unmatched"
     ∨ _partitioner Sample.re_match "T" "logs/readme" Sample.by_year
       = VStr "T__no_match_group").
Proof.
  split.
  - apply (partition_id_stable_off_sentinels Sample.re_match Sample.by_year
             "logs/2020.csv").
    eexists. split; [reflexivity|]. by eexists.
  - apply (partition_id_stable_off_sentinels Sample.re_match Sample.by_year
             "logs/readme").
    intros (matches & Hmatch & _). discriminate Hmatch.
Defined.

(** ** Listing passes, once more *)

Section MorePassProperties.

Variable re_match : string -> string -> option match_object.
Variable self : S3GlobReaderDataConnector.
Variable asset_config : AssetConfig.t.

Lemma token_after_cons (p : list_objects_v2_response) (t : string)
    (pages : list list_objects_v2_response)
    (iterator_dict : gmap string string) :
  NextContinuationToken p = Some t ->
  Forall truncated_with_token pages ->
  token_after (<[token_key := t]> iterator_dict) pages
  = token_after iterator_dict (p :: pages).
Proof.
  intros Hp Hpages. unfold token_after. rewrite last_cons.
  destruct (last pages) as [q|] eqn:Hlast; [|by rewrite Hp].
  apply last_Some in Hlast as [pages' ->].
  apply Forall_app in Hpages as [_ Hq].
  apply Forall_singleton in Hq as [_ [t' Ht']].
  by rewrite Ht', insert_insert_eq.
Qed.

Lemma surviving_keys_misshapen (asset_options : list_objects_v2_response) :
  ¬ has_required_collection asset_config asset_options ->
  ∃ message context,
    surviving_keys re_match asset_config asset_options
    = inl (BatchKwargsError message context).
Proof.
  unfold has_required_collection, surviving_keys, listed_keys.
  destruct (get (AssetConfig.directory_assets asset_config) false).
  - destruct (CommonPrefixes asset_options); [intros []; by eexists|].
    intros _. by eexists _, _.
  - destruct (Contents asset_options); [intros []; by eexists|].
    intros _. by eexists _, _.
Qed.

Section AnyBody.

Context {A : Type}.
Variable body : string -> A -> option exn * A.

(** A pass that has left [pages] behind goes on as a pass over the rest of
    the responses, started with the token of the last of them. *)
Lemma for_get_asset_options_app
    (pages more : list list_objects_v2_response)
    (iterator_dict : gmap string string)
    (log : list (query_options * option list_objects_v2_response))
    (acc acc1 : A) :
  Forall (λ p, truncated_with_token p
               ∧ has_required_collection asset_config p) pages ->
  for_keys body (concat (yields_of re_match asset_config <$> pages)) acc
  = (None, acc1) ->
  ∃ log',
    for_get_asset_options re_match self asset_config body (pages ++ more)
      iterator_dict log acc
    = for_get_asset_options re_match self asset_config body more
        (token_after iterator_dict pages) (log' ++ log) acc1
    ∧ length log' = length pages.
Proof.
  intros Hpages. revert iterator_dict log acc.
  induction Hpages as [|p pages [Htrunc Hp] Hpages IH];
    intros iterator_dict log acc Hkeys.
  - injection Hkeys as <-. by exists [].
  - rewrite fmap_cons in Hkeys. cbn [concat] in Hkeys.
    apply for_keys_app_None in Hkeys as (acc0 & Hkeys0 & Hkeys1).
    destruct (after_keys_truncated p iterator_dict Htrunc)
      as (t & Ht & Hafter).
    destruct (IH (<[token_key := t]> iterator_dict)
                ((build_query_options self asset_config iterator_dict,
                  Some p) :: log) acc0 Hkeys1) as (log' & Hrun & Hlen).
    exists (log' ++ [(build_query_options self asset_config iterator_dict,
                      Some p)]).
    split.
    + change ((p :: pages) ++ more) with (p :: (pages ++ more)).
      cbn [for_get_asset_options].
      rewrite (surviving_keys_ok _ _ _ Hp), Hkeys0, Hafter.
      cbn [calls]. rewrite Hrun, <- app_assoc.
      rewrite (token_after_cons p t) by
        (done || (eapply Forall_impl; [exact Hpages|by intros ? []])).
      reflexivity.
    + rewrite length_app. cbn. lia.
Qed.

(** Whatever the loop body does, raising included, looping over the pages
    of a listing is looping over their keys put end to end. *)
Lemma for_get_asset_options_flat
    (pages : list list_objects_v2_response)
    (last : list_objects_v2_response)
    (iterator_dict : gmap string string)
    (log : list (query_options * option list_objects_v2_response))
    (acc : A) :
  Forall (λ p, truncated_with_token p
               ∧ has_required_collection asset_config p) pages ->
  IsTruncated last = false ->
  has_required_collection asset_config last ->
  (for_get_asset_options re_match self asset_config body (pages ++ [last])
     iterator_dict log acc).1.1
  = for_keys body
      (concat (yields_of re_match asset_config <$> (pages ++ [last]))) acc.
Proof.
  intros Hpages Hlast Hshape. revert iterator_dict log acc.
  induction Hpages as [|p pages [Htrunc Hp] _ IH];
    intros iterator_dict log acc.
  - cbn [app fmap list_fmap concat for_get_asset_options].
    rewrite (surviving_keys_ok _ _ _ Hshape), app_nil_r.
    destruct (for_keys body _ acc) as [[e|] acc']; [done|].
    unfold after_keys. by rewrite Hlast.
  - change ((p :: pages) ++ [last]) with (p :: (pages ++ [last])).
    rewrite fmap_cons. cbn [concat for_get_asset_options].
    rewrite (surviving_keys_ok _ _ _ Hp), for_keys_app.
    destruct (for_keys body _ acc) as [[e|] acc']; [done|].
    destruct (after_keys_truncated p iterator_dict Htrunc)
      as (t & Ht & Hafter).
    rewrite Hafter. apply IH.
Qed.

(** Every call of a loop is made with the query options of the asset. *)
Lemma for_get_asset_options_queries
    (P : query_options -> Prop)
    (responses : list list_objects_v2_response)
    (iterator_dict : gmap string string)
    (log : list (query_options * option list_objects_v2_response))
    (acc : A) :
  (∀ d, P (build_query_options self asset_config d)) ->
  Forall (λ c, P c.1) log ->
  Forall (λ c, P c.1)
    (calls (for_get_asset_options re_match self asset_config body responses
              iterator_dict log acc).2).
Proof.
  intros HP. revert iterator_dict log acc.
  induction responses as [|asset_options responses IH];
    intros iterator_dict log acc Hlog; cbn [for_get_asset_options].
  - cbn [snd calls]. constructor; [apply HP|exact Hlog].
  - assert (Hlog' : Forall (λ c, P c.1)
                      ((build_query_options self asset_config iterator_dict,
                        Some asset_options) :: log))
      by (constructor; [apply HP|exact Hlog]).
    destruct (surviving_keys re_match asset_config asset_options)
      as [e|keys]; [exact Hlog'|].
    destruct (for_keys body keys acc) as [[e|] acc']; [exact Hlog'|].
    destruct (after_keys asset_options iterator_dict)
      as [e|[[] iterator_dict']]; [exact Hlog'| |exact Hlog'].
    by apply IH.
Qed.

End AnyBody.

(** A single [next()] goes through truncated pages without surviving keys,
    one call each. *)
Lemma enter_skips_empty_pages
    (pages more : list list_objects_v2_response)
    (iterator_dict : gmap string string)
    (log : list (query_options * option list_objects_v2_response)) :
  Forall (λ p, (truncated_with_token p
                ∧ has_required_collection asset_config p)
               ∧ yields_of re_match asset_config p = []) pages ->
  ∃ log',
    enter re_match self asset_config (pages ++ more) iterator_dict log
    = enter re_match self asset_config more
        (token_after iterator_dict pages) (log' ++ log)
    ∧ length log' = length pages.
Proof.
  intros Hpages. revert iterator_dict log.
  induction Hpages as [|p pages [[Htrunc Hp] Hempty] Hpages IH];
    intros iterator_dict log.
  - by exists [].
  - destruct (after_keys_truncated p iterator_dict Htrunc)
      as (t & Ht & Hafter).
    destruct (IH (<[token_key := t]> iterator_dict)
                ((build_query_options self asset_config iterator_dict,
                  Some p) :: log)) as (log' & Hrun & Hlen).
    exists (log' ++ [(build_query_options self asset_config iterator_dict,
                      Some p)]).
    split.
    + change ((p :: pages) ++ more) with (p :: (pages ++ more)).
      cbn [enter].
      rewrite (surviving_keys_ok _ _ _ Hp), Hempty, Hafter.
      rewrite Hrun, <- app_assoc.
      rewrite (token_after_cons p t) by
        (done || (eapply Forall_impl; [exact Hpages|by intros ? [[] _]])).
      reflexivity.
    + rewrite length_app. cbn. lia.
Qed.

(** The most recent call of a generator suspended on a page was made with
    the query options the state gives now. *)
Lemma enter_last_query responses iterator_dict log sig asset_options rest
    iterator_dict' s3' :
  enter re_match self asset_config responses iterator_dict log
  = (sig, Suspended asset_options rest, iterator_dict', s3') ->
  ∃ older,
    calls s3'
    = (build_query_options self asset_config iterator_dict',
       Some asset_options) :: older.
Proof.
  revert iterator_dict log.
  induction responses as [|asset_options' responses IH];
    intros iterator_dict log; cbn [enter]; [done|].
  destruct (surviving_keys re_match asset_config asset_options')
    as [e|[|key keys]]; [done| |].
  - destruct (after_keys asset_options' iterator_dict)
      as [e|[[] iterator_dict1]]; [done| |done].
    apply IH.
  - intros [= <- <- <- <- <-]. by eexists.
Qed.

End MorePassProperties.

(** X3. Whatever the responses and whatever the loop does with the keys,
    every listing call of a pass is made for the bucket of the connector and
    the prefix of the asset, with the delimiter and the page size of the
    asset when it sets them and those of the connector otherwise: the calls
    of a pass differ in their continuation token only. *)
Theorem pass_calls_share_query_options
    (re_match : string -> string -> option match_object)
    (self : S3GlobReaderDataConnector) (asset_config : AssetConfig.t)
    {A : Type} (body : string -> A -> option exn * A)
    (responses : list list_objects_v2_response)
    (iterator_dict : gmap string string) (acc : A) :
  Forall
    (λ c : query_options * option list_objects_v2_response,
       Bucket c.1 = _bucket self
       ∧ Prefix c.1 = AssetConfig.prefix asset_config
       ∧ Delimiter c.1
         = match AssetConfig.delimiter asset_config with
           | Some d => d
           | None => _delimiter self
           end
       ∧ MaxKeys c.1
         = match AssetConfig.max_keys asset_config with
           | Some n => n
           | None => _max_keys self
           end)
    (calls (for_get_asset_options re_match self asset_config body responses
              iterator_dict [] acc).2).
Proof.
  apply (for_get_asset_options_queries re_match self asset_config body
           (λ q, Bucket q = _bucket self
                 ∧ Prefix q = AssetConfig.prefix asset_config
                 ∧ Delimiter q
                   = match AssetConfig.delimiter asset_config with
                     | Some d => d
                     | None => _delimiter self
                     end
                 ∧ MaxKeys q
                   = match AssetConfig.max_keys asset_config with
                     | Some n => n
                     | None => _max_keys self
                     end)); [|constructor].
  intros d. cbn. unfold get.
  by destruct (AssetConfig.delimiter asset_config),
    (AssetConfig.max_keys asset_config).
Qed.

(** X4. While a generator is suspended on a page, the query options that
    the state of the asset gives, which are those a new pass over the asset
    would start with, are the ones of the call that fetched that page: a
    pass started then asks for the same page again. *)
Theorem suspended_pass_would_repeat_its_last_call
    (re_match : string -> string -> option match_object)
    (self : S3GlobReaderDataConnector) (asset_config : AssetConfig.t)
    (iterator_dict0 : gmap string string)
    (responses : list list_objects_v2_response)
    (asset_options : list_objects_v2_response) (rest : list string)
    (iterator_dict : gmap string string) (s3 : s3_client) :
  reachable re_match self asset_config iterator_dict0 responses
    (Suspended asset_options rest) iterator_dict s3 ->
  ∃ older,
    calls s3
    = (build_query_options self asset_config iterator_dict,
       Some asset_options) :: older.
Proof.
  intros Hreach.
  remember (Suspended asset_options rest) as g eqn:Hg.
  revert asset_options rest Hg.
  induction Hreach as [|g it s3 sig g' it' s3' _ IH Hnext];
    intros asset_options rest Hg; [done|].
  subst g'.
  destruct g as [|asset_options' [|key keys]|];
    cbn [_get_asset_options_next] in Hnext.
  - by apply enter_last_query in Hnext.
  - destruct (after_keys asset_options' it) as [e|[[] it1]]; [done| |done].
    by apply enter_last_query in Hnext.
  - injection Hnext as _ <- <- <- <-. by apply (IH _ (key :: keys)).
  - done.
Qed.

Lemma suspended_pass_would_repeat_its_last_call_witness :
  ∃ older,
    [(build_query_options Sample.connector Sample.files {[token_key := "t1"]},
      Some Sample.page2);
     (build_query_options Sample.connector Sample.files ∅, Some Sample.page1)]
    = (build_query_options Sample.connector Sample.files
         {[token_key := "t1"]}, Some Sample.page2) :: older.
Proof.
  apply (suspended_pass_would_repeat_its_last_call Sample.re_match
           Sample.connector Sample.files ∅ [Sample.page1; Sample.page2]
           Sample.page2 [] {[token_key := "t1"]}
           {| pending := [];
              calls := [(build_query_options Sample.connector Sample.files
                           {[token_key := "t1"]}, Some Sample.page2);
                        (build_query_options Sample.connector Sample.files ∅,
                         Some Sample.page1)] |}).
  eapply reachable_next;
    [eapply reachable_next;
       [eapply reachable_next; [apply reachable_created | reflexivity]
       | reflexivity]
    | reflexivity].
Defined.

(** X5. A pass that meets a response without the collection its mode reads,
    after truncated pages it has gone through: the keys of those pages were
    handed out, the [BatchKwargsError] leaves the loop, the responses after
    the bad one are not asked for, and the state keeps the token of the last
    page gone through, so that the next pass starts by asking for the page
    that failed. *)
Theorem failed_pass_keeps_last_token
    (re_match : string -> string -> option match_object)
    (self : S3GlobReaderDataConnector) (asset_config : AssetConfig.t)
    (pages : list list_objects_v2_response)
    (bad : list_objects_v2_response)
    (rest : list list_objects_v2_response)
    (iterator_dict : gmap string string) :
  Forall (λ p, truncated_with_token p
               ∧ has_required_collection asset_config p) pages ->
  ¬ has_required_collection asset_config bad ->
  ∃ message context log',
    for_get_asset_options re_match self asset_config collect
      (pages ++ bad :: rest) iterator_dict [] []
    = (Some (BatchKwargsError message context),
       concat (yields_of re_match asset_config <$> pages),
       token_after iterator_dict pages,
       {| pending := rest;
          calls := (build_query_options self asset_config
                      (token_after iterator_dict pages), Some bad)
                   :: log' |})
    ∧ length log' = length pages
    ∧ (∀ p, last pages = Some p ->
            token_after iterator_dict pages !! token_key
            = NextContinuationToken p).
Proof.
  intros Hpages Hbad.
  destruct (surviving_keys_misshapen re_match asset_config bad Hbad)
    as (message & context & Hkeys).
  destruct (for_get_asset_options_app re_match self asset_config collect
              pages (bad :: rest) iterator_dict [] [] _ Hpages
              (for_keys_collect _ [])) as (log' & Hrun & Hlen).
  exists message, context, log'. split; [|split; [exact Hlen|]].
  - rewrite Hrun. cbn [for_get_asset_options]. rewrite Hkeys.
    by rewrite !app_nil_r.
  - intros p Hp. unfold token_after. rewrite Hp.
    apply last_Some in Hp as [pages' ->].
    apply Forall_app in Hpages as [_ Hq].
    apply Forall_singleton in Hq as [[_ [t Ht]] _].
    by rewrite Ht, lookup_insert_eq.
Qed.

Lemma failed_pass_keeps_last_token_witness :
  let bad :=
    {| CommonPrefixes := Some [{| item_Prefix := "logs/2021/" |}];
       Contents := None;
       IsTruncated := true;
       NextContinuationToken := Some "t2" |} in
  ∃ message context log',
    for_get_asset_options Sample.re_match Sample.connector Sample.files
      collect [Sample.page1; bad; Sample.page2] ∅ [] []
    = (Some (BatchKwargsError message context), ["a"; "b"],
       {[token_key := "t1"]},
       {| pending := [Sample.page2];
          calls := (build_query_options Sample.connector Sample.files
                      {[token_key := "t1"]}, Some bad) :: log' |}).
Proof.
  intros bad.
  destruct (failed_pass_keeps_last_token Sample.re_match Sample.connector
              Sample.files [Sample.page1] bad [Sample.page2] ∅)
    as (message & context & log' & Hrun & _ & _).
  - constructor; [|constructor].
    split; [split; [reflexivity | by eexists] | by eexists].
  - intros [x Hx]. discriminate Hx.
  - by exists message, context, log'.
Defined.

(** X6. A [next()] does not come back empty-handed from a truncated page
    without surviving keys: it stores the token, asks for the next page and
    goes on, one call a page, until a page has a key to yield. *)
Theorem next_skips_empty_pages
    (re_match : string -> string -> option match_object)
    (self : S3GlobReaderDataConnector) (asset_config : AssetConfig.t)
    (pages : list list_objects_v2_response)
    (asset_options : list_objects_v2_response)
    (more : list list_objects_v2_response)
    (key : string) (keys : list string)
    (iterator_dict : gmap string string) :
  Forall (λ p, (truncated_with_token p
                ∧ has_required_collection asset_config p)
               ∧ yields_of re_match asset_config p = []) pages ->
  has_required_collection asset_config asset_options ->
  yields_of re_match asset_config asset_options = key :: keys ->
  ∃ log',
    _get_asset_options_next re_match self asset_config Created iterator_dict
      {| pending := pages ++ asset_options :: more; calls := [] |}
    = (Yield key, Suspended asset_options keys,
       token_after iterator_dict pages,
       {| pending := more;
          calls := (build_query_options self asset_config
                      (token_after iterator_dict pages), Some asset_options)
                   :: log' |})
    ∧ length log' = length pages.
Proof.
  intros Hpages Hshape Hkeys.
  destruct (enter_skips_empty_pages re_match self asset_config pages
              (asset_options :: more) iterator_dict [] Hpages)
    as (log' & Hrun & Hlen).
  exists log'. split; [|exact Hlen].
  cbn [_get_asset_options_next pending calls]. rewrite Hrun.
  cbn [enter]. rewrite (surviving_keys_ok _ _ _ Hshape), Hkeys.
  by rewrite app_nil_r.
Qed.

Lemma next_skips_empty_pages_witness :
  ∃ log',
    _get_asset_options_next Sample.re_match Sample.connector Sample.files
      Created ∅
      {| pending := [Sample.page [("folder/", 0)] (Some "t0");
                     Sample.page1; Sample.page2];
         calls := [] |}
    = (Yield "a", Suspended Sample.page1 ["b"], {[token_key := "t0"]},
       {| pending := [Sample.page2];
          calls := (build_query_options Sample.connector Sample.files
                      {[token_key := "t0"]}, Some Sample.page1) :: log' |})
    ∧ length log' = 1%nat.
Proof.
  apply (next_skips_empty_pages Sample.re_match Sample.connector Sample.files
           [Sample.page [("folder/", 0)] (Some "t0")] Sample.page1
           [Sample.page2] "a" ["b"] ∅).
  - constructor; [|constructor].
    split; [split; [split; [reflexivity | by eexists] | by eexists]
           | reflexivity].
  - by eexists.
  - reflexivity.
Defined.

(** X7. Paging does not show in a loop over the keys of an asset: for any
    loop body, one that raises on some key included, the loop over a listing
    of truncated pages ended by an untruncated one ends as the loop over the
    keys of the pages put end to end does, with the same exception if any
    and the same state of the body. *)
Theorem paging_is_transparent_to_the_loop
    (re_match : string -> string -> option match_object)
    (self : S3GlobReaderDataConnector) (asset_config : AssetConfig.t)
    {A : Type} (body : string -> A -> option exn * A)
    (pages : list list_objects_v2_response)
    (last : list_objects_v2_response)
    (iterator_dict : gmap string string)
    (log : list (query_options * option list_objects_v2_response))
    (acc : A) :
  Forall (λ p, truncated_with_token p
               ∧ has_required_collection asset_config p) pages ->
  IsTruncated last = false ->
  has_required_collection asset_config last ->
  (for_get_asset_options re_match self asset_config body (pages ++ [last])
     iterator_dict log acc).1.1
  = for_keys body
      (concat (yields_of re_match asset_config <$> (pages ++ [last]))) acc.
Proof. apply for_get_asset_options_flat. Qed.

Lemma paging_is_transparent_to_the_loop_witness :
  let stop_at_b (key : string) (acc : list string) :=
    if decide (key = "b") then (Some (KeyError key), acc)
    else (None, acc ++ [key]) in
  (for_get_asset_options Sample.re_match Sample.connector Sample.files
     stop_at_b [Sample.page1; Sample.page2] ∅ [] []).1.1
  = for_keys stop_at_b ["a"; "b"; "c"] [].
Proof.
  intros stop_at_b.
  apply (paging_is_transparent_to_the_loop Sample.re_match Sample.connector
           Sample.files stop_at_b [Sample.page1] Sample.page2 ∅ [] []).
  - constructor; [|constructor].
    split; [split; [reflexivity | by eexists] | by eexists].
  - reflexivity.
  - by eexists.
Defined.

(** ** Batch descriptors, once more *)

(** X8. A descriptor has the entries [s3] and [reader_options], the entry
    [reader_method] exactly when the call, the asset (with a method that is
    not empty) or the connector gives one, and the entry [limit] exactly when
    the limit is neither [None] nor zero; it has no other entry, and its
    [s3] entry is the URI of the key in the bucket of the connector. *)
Theorem descriptor_entries
    (self : S3GlobReaderDataConnector) (h : heap) (key : string)
    (asset_config : AssetConfig.t) (reader_method : option string)
    (reader_options : option pydict) (limit : pyval) :
  let bk :=
    (_build_batch_kwargs_from_key self h key asset_config reader_method
       reader_options limit).1 in
  dom bk
  = descriptor_keys
      (preferred_reader_method (_reader_method self)
         (AssetConfig.reader_method asset_config) reader_method) limit
  ∧ bk !! "s3" = Some (s3_uri self key).
Proof.
  intros bk. split; [|apply built_s3].
  unfold bk, _build_batch_kwargs_from_key, S3BatchKwargs, descriptor_keys,
    preferred_reader_method.
  cbn [fst].
  destruct (truthy limit);
    destruct reader_method;
    destruct (AssetConfig.reader_method asset_config) as [m|];
    try destruct (truthy (VStr m));
    destruct (_reader_method self);
    rewrite ?dom_insert_L, dom_singleton_L; set_solver.
Qed.

Lemma merged_reader_options_idemp (connector_level : pydict)
    (asset_level call_level : option pydict) :
  merged_reader_options
    (merged_reader_options connector_level asset_level call_level)
    asset_level call_level
  = merged_reader_options connector_level asset_level call_level.
Proof.
  apply map_eq. intros k. rewrite !merged_reader_options_lookup.
  by destruct (default ∅ call_level !! k), (default ∅ asset_level !! k).
Qed.

(** X9. What building a descriptor does to the heap: it writes the dict of
    the connector's [reader_options] and no other; it removes no key from
    that dict; and building again for the same asset with the same options
    of the call, for any key, leaves the dict as the first build left it. *)
Theorem builder_heap_effect
    (self : S3GlobReaderDataConnector) (h : heap) (key key' : string)
    (asset_config : AssetConfig.t) (reader_method reader_method' : option string)
    (reader_options : option pydict) (limit limit' : pyval) :
  let r := _reader_options self in
  let first :=
    _build_batch_kwargs_from_key self h key asset_config reader_method
      reader_options limit in
  let second :=
    _build_batch_kwargs_from_key self first.2 key' asset_config reader_method'
      reader_options limit' in
  (∀ l, l ≠ r -> first.2 !! l = h !! l)
  ∧ dom (deref h r) ⊆ dom (deref first.2 r)
  ∧ deref second.2 r = deref first.2 r.
Proof.
  intros r first second. split; [|split].
  - intros l Hl. by apply built_heap_elsewhere.
  - unfold first, r. rewrite built_heap. unfold merged_reader_options.
    rewrite !dom_union_L. set_solver.
  - unfold second, first, r. rewrite !built_heap.
    apply merged_reader_options_idemp.
Qed.

Lemma builder_heap_effect_witness :
  let first :=
    _build_batch_kwargs_from_key Sample.connector Sample.heap0
      "access_logs/2019-01.csv.gz" Sample.tilde_separated None None VNone in
  first.2 !! 2%positive = Sample.heap0 !! 2%positive.
Proof.
  intros first.
  apply (builder_heap_effect Sample.connector Sample.heap0
           "access_logs/2019-01.csv.gz" "access_logs/2019-02.csv.gz"
           Sample.tilde_separated None None None VNone VNone).
  discriminate.
Defined.

Lemma for_keys_yield_built
    (self : S3GlobReaderDataConnector) (asset_config : AssetConfig.t)
    (reader_options : option pydict) (limit : pyval) (h0 : heap)
    (keys : list string) (h : heap) (out : list pydict) :
  ∃ h',
    for_keys (yield_built self asset_config reader_options limit) keys
      (h, out)
    = (None,
       (h',
        out ++ ((λ key,
                   (_build_batch_kwargs_from_key self h0 key asset_config
                      None reader_options limit).1) <$> keys))).
Proof.
  revert h out. induction keys as [|key keys IH]; intros h out.
  - exists h. cbn. by rewrite app_nil_r.
  - cbn [for_keys]. unfold yield_built at 1. cbn [fst snd].
    pose proof (built_same_limit self asset_config reader_options h h0 key
                  None limit limit (same_limit_refl limit)) as Hbk.
    destruct (_build_batch_kwargs_from_key self h key asset_config None
                reader_options limit) as [bk h1].
    cbn [fst] in Hbk. subst bk.
    destruct (IH h1 (out ++ [(_build_batch_kwargs_from_key self h0 key
                                asset_config None reader_options limit).1]))
      as (h' & Hrun).
    exists h'. rewrite Hrun, fmap_cons, <- app_assoc. reflexivity.
Qed.

(** X10. The sequence of descriptors of a registered asset, drained over a
    listing of truncated pages ended by an untruncated one: it has one
    descriptor for each surviving key, in the order of the listing, each
    with the URI of its key; nothing is raised, every page was asked for,
    and the state of the asset is left without a continuation token. *)
Theorem asset_sequence_follows_the_listing
    (re_match : string -> string -> option match_object)
    (self : S3GlobReaderDataConnector) (data_asset_name : string)
    (asset_config : AssetConfig.t)
    (reader_method : option string) (reader_options : option pydict)
    (limit : pyval) (h : heap)
    (pages : list list_objects_v2_response)
    (last : list_objects_v2_response)
    (log : list (query_options * option list_objects_v2_response)) :
  _assets self !! data_asset_name = Some asset_config ->
  Forall (λ p, truncated_with_token p
               ∧ has_required_collection asset_config p) pages ->
  IsTruncated last = false ->
  has_required_collection asset_config last ->
  let keys :=
    concat (yields_of re_match asset_config <$> (pages ++ [last])) in
  ∃ out self' h' s3',
    _get_iterator re_match self data_asset_name reader_method reader_options
      limit h {| pending := pages ++ [last]; calls := log |}
    = (None, out, self', h', s3')
    ∧ (λ bk : pydict, bk !! "s3") <$> out
      = (λ key, Some (s3_uri self key)) <$> keys
    ∧ pending s3' = []
    ∧ ∃ iterator_dict,
        _iterators self' !! data_asset_name = Some iterator_dict
        ∧ iterator_dict !! token_key = None.
Proof.
  intros Hasset Hpages Hlast Hshape keys.
  destruct (for_keys_yield_built self asset_config reader_options limit h
              keys h []) as (h' & Hkeys).
  destruct (for_get_asset_options_complete re_match self asset_config
              (yield_built self asset_config reader_options limit)
              pages last (default ∅ (_iterators self !! data_asset_name))
              log _ _ Hpages Hlast Hshape Hkeys)
    as (queries & Hrun & _ & _).
  unfold _get_iterator, _build_asset_iterator. rewrite Hasset.
  cbn [pending calls]. rewrite Hrun.
  eexists _, _, _, _. split; [reflexivity|]. split; [|split; [reflexivity|]].
  - cbn [app]. rewrite <- list_fmap_compose.
    apply list_fmap_ext. intros i key _. unfold compose. apply built_s3.
  - eexists. cbn. rewrite lookup_insert_eq. split; [reflexivity|].
    apply lookup_delete_eq.
Qed.

Lemma asset_sequence_follows_the_listing_witness :
  ∃ out self' h' s3',
    _get_iterator Sample.re_match Sample.connector "files" None None VNone
      Sample.heap0 (Sample.client [Sample.page1; Sample.page2])
    = (None, out, self', h', s3')
    ∧ (λ bk : pydict, bk !! "s3") <$> out
      = [Some (VStr "s3a://my_bucket/a"); Some (VStr "s3a://my_bucket/b");
         Some (VStr "s3a://my_bucket/c")].
Proof.
  destruct (asset_sequence_follows_the_listing Sample.re_match
              Sample.connector "files" Sample.files None None VNone
              Sample.heap0 [Sample.page1] Sample.page2 [])
    as (out & self' & h' & s3' & Hrun & Hout & _).
  - reflexivity.
  - constructor; [|constructor].
    split; [split; [reflexivity | by eexists] | by eexists].
  - reflexivity.
  - by eexists.
  - by exists out, self', h', s3'.
Defined.

(** ** What a request leaves alone *)

Lemma for_get_asset_options_heap_frame
    (re_match : string -> string -> option match_object)
    (self : S3GlobReaderDataConnector) (asset_config : AssetConfig.t)
    {A : Type} (body : string -> A -> option exn * A) (heap_of : A -> heap)
    (responses : list list_objects_v2_response)
    (iterator_dict : gmap string string)
    (log : list (query_options * option list_objects_v2_response))
    (acc : A) (l : loc) :
  (∀ key acc, heap_of (body key acc).2 !! l = heap_of acc !! l) ->
  heap_of (for_get_asset_options re_match self asset_config body responses
             iterator_dict log acc).1.1.2 !! l
  = heap_of acc !! l.
Proof.
  intros Hbody.
  apply (for_get_asset_options_invariant re_match self asset_config body
           (λ acc', heap_of acc' !! l = heap_of acc !! l) (λ _, True));
    [|done|done].
  intros key acc' _ Hacc'. by rewrite Hbody.
Qed.

Lemma yield_built_heap_frame
    (self : S3GlobReaderDataConnector) (asset_config : AssetConfig.t)
    (reader_options : option pydict) (limit : pyval) (l : loc)
    (key : string) (acc : heap * list pydict) :
  l ≠ _reader_options self ->
  (yield_built self asset_config reader_options limit key acc).2.1 !! l
  = acc.1 !! l.
Proof.
  intros Hl. unfold yield_built.
  pose proof (built_heap_elsewhere self acc.1 key asset_config None
                reader_options limit l Hl) as Hframe.
  by destruct (_build_batch_kwargs_from_key self acc.1 key asset_config None
                 reader_options limit).
Qed.

Lemma scan_body_heap_frame
    (re_match : string -> string -> option match_object)
    (clock : nat -> string)
    (self : S3GlobReaderDataConnector) (asset_config : AssetConfig.t)
    (partition_id : string) (reader_options : option pydict) (l : loc)
    (key : string) (acc : scan_state) :
  l ≠ _reader_options self ->
  (scan_body re_match clock self asset_config partition_id reader_options
     key acc).2.1.1 !! l
  = acc.1.1 !! l.
Proof.
  intros Hl. destruct acc as [[h batch_kwargs] n]. unfold scan_body.
  destruct (decide _) as [_|_]; [|done].
  destruct batch_kwargs as [d|]; [|done].
  pose proof (built_heap_elsewhere self h key asset_config None
                reader_options (default VNone (d !! "limit")) l Hl) as Hframe.
  by destruct (_build_batch_kwargs_from_key self h key asset_config None
                 reader_options (default VNone (d !! "limit"))).
Qed.

(** X11. Whatever a request for the descriptors of an asset does, raise
    included, it leaves the registry of assets, the bucket, the reader
    method and the reference to the reader options of the connector as they
    were, it does not touch the listing state of any other asset, and in the
    heap it writes no dict but the connector's [reader_options]. *)
Theorem get_iterator_frame
    (re_match : string -> string -> option match_object)
    (self : S3GlobReaderDataConnector) (data_asset_name : string)
    (reader_method : option string) (reader_options : option pydict)
    (limit : pyval) (h : heap) (s3 : s3_client) :
  let result :=
    _get_iterator re_match self data_asset_name reader_method reader_options
      limit h s3 in
  let self' := result.1.1.2 in
  let h' := result.1.2 in
  (_assets self' = _assets self
   ∧ _bucket self' = _bucket self
   ∧ _reader_method self' = _reader_method self
   ∧ _reader_options self' = _reader_options self)
  ∧ (∀ other, other ≠ data_asset_name ->
              _iterators self' !! other = _iterators self !! other)
  ∧ (∀ l, l ≠ _reader_options self -> h' !! l = h !! l).
Proof.
  cbv zeta. unfold _get_iterator, _build_asset_iterator.
  destruct (_assets self !! data_asset_name) as [asset_config|]; [|done].
  pose proof (λ l Hl,
                for_get_asset_options_heap_frame re_match self asset_config
                  (yield_built self asset_config reader_options limit) fst
                  (pending s3)
                  (default ∅ (_iterators self !! data_asset_name))
                  (calls s3) (h, []) l
                  (λ key acc, yield_built_heap_frame self asset_config
                                reader_options limit l key acc Hl))
    as Hheap.
  destruct (for_get_asset_options _ _ _ _ _ _ _ _)
    as [[[e [h' out]] iterator_dict'] s3'].
  cbn [fst snd] in *. split; [done|]. split; [|exact Hheap].
  intros other Hother. cbn. by rewrite lookup_insert_ne.
Qed.

Lemma get_iterator_frame_witness :
  let result :=
    _get_iterator Sample.re_match Sample.connector "files" None None VNone
      Sample.heap0 (Sample.client [Sample.page1; Sample.page2]) in
  _iterators result.1.1.2 !! "by_year" = _iterators Sample.connector !! "by_year"
  ∧ result.1.2 !! 2%positive = Sample.heap0 !! 2%positive.
Proof.
  intros result.
  destruct (get_iterator_frame Sample.re_match Sample.connector "files"
              None None VNone Sample.heap0
              (Sample.client [Sample.page1; Sample.page2]))
    as (_ & Hiterators & Hheap).
  split; [apply Hiterators | apply Hheap]; discriminate.
Defined.

(** X12. A request for a batch takes [data_asset_name] and [partition_id]
    out of the [batch_parameters] dict it was handed, which it leaves
    untouched only when it has no [data_asset_name].  When the request has
    no [data_asset_name], or has a [partition_id] that is not empty, then
    whatever it does, raise included, it leaves the registry of assets, the
    bucket, the reader method and the reference to the reader options of the
    connector as they were, it does not touch the listing state of an asset
    other than the one it names, and in the heap it writes no dict but the
    connector's [reader_options]. *)
Theorem build_batch_kwargs_frame
    (re_match : string -> string -> option match_object)
    (clock : nat -> string)
    (process_batch_definition :
       option string -> pydict -> pyval -> option pydict)
    (yield_batch_kwargs : inherited_method)
    (self : S3GlobReaderDataConnector)
    (batch_parameters : BatchParameters.t) (h : heap) (s3 : s3_client) :
  let result :=
    _build_batch_kwargs re_match clock process_batch_definition
      yield_batch_kwargs self batch_parameters h s3 in
  let self' := result.1.1.1.2 in
  let h' := result.1.1.2 in
  result.2
  = match BatchParameters.data_asset_name batch_parameters with
    | Some _ => popped batch_parameters
    | None => batch_parameters
    end
  ∧ (BatchParameters.data_asset_name batch_parameters = None
     ∨ given (BatchParameters.partition_id batch_parameters) = true ->
     (_assets self' = _assets self
      ∧ _bucket self' = _bucket self
      ∧ _reader_method self' = _reader_method self
      ∧ _reader_options self' = _reader_options self)
     ∧ (∀ other,
           BatchParameters.data_asset_name batch_parameters ≠ Some other ->
           _iterators self' !! other = _iterators self !! other)
     ∧ (∀ l, l ≠ _reader_options self -> h' !! l = h !! l)).
Proof.
  cbv zeta. unfold _build_batch_kwargs.
  destruct (BatchParameters.data_asset_name batch_parameters)
    as [data_asset_name|]; [|done].
  destruct (BatchParameters.partition_id batch_parameters)
    as [partition_id|]; [|split; [done|]; by intros [?|?]].
  cbn [given].
  destruct (truthy (VStr partition_id)); [|split; [done|]; by intros [?|?]].
  destruct (_assets self !! data_asset_name) as [asset_config|]; [|done].
  pose proof (λ l Hl,
                for_get_asset_options_heap_frame re_match self asset_config
                  (scan_body re_match clock self asset_config partition_id
                     (BatchParameters.reader_options
                        (popped batch_parameters)))
                  (λ acc : scan_state, acc.1.1)
                  (pending s3)
                  (default ∅ (_iterators self !! data_asset_name))
                  (calls s3)
                  (h, processed_batch_definition process_batch_definition
                        self (popped batch_parameters) h, O) l
                  (λ key acc, scan_body_heap_frame re_match clock self
                                asset_config partition_id
                                (BatchParameters.reader_options
                                   (popped batch_parameters)) l key acc Hl))
    as Hheap.
  destruct (for_get_asset_options _ _ _ _ _ _ _ _)
    as [[[e [[h' found] n]] iterator_dict'] s3'].
  cbn [fst snd] in Hheap.
  assert (Hiterators : ∀ other,
             Some data_asset_name ≠ Some other ->
             <[data_asset_name := iterator_dict']> (_iterators self) !! other
             = _iterators self !! other).
  { intros other Hother. apply lookup_insert_ne. congruence. }
  by destruct e as [e|], found as [bk|].
Qed.

Lemma build_batch_kwargs_frame_witness :
  let request :=
    {| BatchParameters.data_asset_name := Some "by_year";
       BatchParameters.partition_id := Some "2020";
       BatchParameters.reader_method := None;
       BatchParameters.reader_options := Some {["sep" := VStr ";"]};
       BatchParameters.limit := VNone |} in
  let result :=
    _build_batch_kwargs Sample.re_match Sample.clock
      Sample.process_batch_definition Base.yield_batch_kwargs
      Sample.connector request Sample.heap0
      (Sample.client [Sample.page [("logs/2020.csv", 10)] None]) in
  BatchParameters.data_asset_name result.2 = None
  ∧ BatchParameters.partition_id result.2 = None
  ∧ _iterators result.1.1.1.2 !! "files"
    = _iterators Sample.connector !! "files"
  ∧ result.1.1.2 !! 2%positive = Sample.heap0 !! 2%positive.
Proof.
  intros request result.
  destruct (build_batch_kwargs_frame Sample.re_match Sample.clock
              Sample.process_batch_definition Base.yield_batch_kwargs
              Sample.connector request Sample.heap0
              (Sample.client [Sample.page [("logs/2020.csv", 10)] None]))
    as (Hpopped & Hframe).
  destruct Hframe as (_ & Hiterators & Hheap); [by right|].
  fold result in Hpopped.
  split; [by rewrite Hpopped|]. split; [by rewrite Hpopped|].
  split; [apply Hiterators | apply Hheap]; discriminate.
Defined.

(** ** A request without a partition id *)

(** X20. A request that names an asset and has no [partition_id], or an
    empty one, is handed over to the inherited [yield_batch_kwargs] with the
    name, what is left of [batch_parameters] and the answer of the engine as
    keyword arguments.  The call raises [TypeError], the connector, the heap
    and the client being as they were, when the engine answered [None] and
    when its answer has the key [data_asset_name] or a key that is left in
    [batch_parameters]; otherwise the request returns or raises what the
    inherited method does, on the connector, the heap and the client as they
    were, and leaves them as that method does. *)
Theorem request_without_partition_id
    (re_match : string -> string -> option match_object)
    (clock : nat -> string)
    (process_batch_definition :
       option string -> pydict -> pyval -> option pydict)
    (yield_batch_kwargs : inherited_method)
    (self : S3GlobReaderDataConnector)
    (batch_parameters : BatchParameters.t) (h : heap) (s3 : s3_client)
    (data_asset_name : string) :
  BatchParameters.data_asset_name batch_parameters = Some data_asset_name ->
  given (BatchParameters.partition_id batch_parameters) = false ->
  let result :=
    _build_batch_kwargs re_match clock process_batch_definition
      yield_batch_kwargs self batch_parameters h s3 in
  let answer :=
    processed_batch_definition process_batch_definition self
      batch_parameters h in
  (answer = None -> result.1 = (inl TypeError, self, h, s3))
  ∧ (∀ batch_kwargs key,
        answer = Some batch_kwargs ->
        is_Some (batch_kwargs !! key) ->
        key = "data_asset_name" ∨ key ∈ keywords (popped batch_parameters) ->
        result.1 = (inl TypeError, self, h, s3))
  ∧ (∀ batch_kwargs,
        answer = Some batch_kwargs ->
        batch_kwargs !! "data_asset_name" = None ->
        (∀ key, key ∈ keywords (popped batch_parameters) ->
                batch_kwargs !! key = None) ->
        let inherited :=
          yield_batch_kwargs self data_asset_name (popped batch_parameters)
            batch_kwargs h s3 in
        result.1.1.1.1
        = match inherited.1.1.1 with
          | inl e => inl e
          | inr bk => inr (Yielded bk)
          end
        ∧ result.1.1.1.2 = inherited.1.1.2
        ∧ result.1.1.2 = inherited.1.2
        ∧ result.1.2 = inherited.2).
Proof.
  intros Hname Hid. cbv zeta.
  assert (Hrun :
    _build_batch_kwargs re_match clock process_batch_definition
      yield_batch_kwargs self batch_parameters h s3
    = (call_yield_batch_kwargs yield_batch_kwargs self data_asset_name
         (popped batch_parameters)
         (processed_batch_definition process_batch_definition self
            batch_parameters h) h s3,
       popped batch_parameters)).
  { unfold _build_batch_kwargs. rewrite Hname.
    destruct (BatchParameters.partition_id batch_parameters)
      as [partition_id|]; [|done].
    cbn [given] in Hid. by rewrite Hid. }
  rewrite Hrun. cbn [fst snd]. unfold call_yield_batch_kwargs.
  split; [by intros ->|]. split.
  - intros batch_kwargs key -> Hkey Hin.
    rewrite decide_False; [done|].
    intros Hempty.
    assert (Hdom : key ∈ ({["data_asset_name"]}
                          ∪ keywords (popped batch_parameters))
                         ∩ dom batch_kwargs).
    { apply elem_of_intersection. split.
      - destruct Hin as [->|Hin];
          [apply elem_of_union_l; by apply elem_of_singleton
          |by apply elem_of_union_r].
      - by apply elem_of_dom. }
    rewrite Hempty in Hdom. set_solver.
  - intros batch_kwargs -> Hfresh Hdisjoint.
    rewrite decide_True.
    + by destruct (yield_batch_kwargs _ _ _ _ _ _) as [[[[e|bk] self'] h'] s3'].
    + apply set_eq. intros key. split; [|set_solver].
      intros [Hkey Hdom%elem_of_dom]%elem_of_intersection.
      apply elem_of_union in Hkey as [Hkey%elem_of_singleton|Hkey].
      * subst key. rewrite Hfresh in Hdom. by destruct Hdom.
      * rewrite (Hdisjoint key Hkey) in Hdom. by destruct Hdom.
Qed.

Lemma request_without_partition_id_witness :
  let request limit :=
    {| BatchParameters.data_asset_name := Some "files";
       BatchParameters.partition_id := Some "";
       BatchParameters.reader_method := None;
       BatchParameters.reader_options := None;
       BatchParameters.limit := limit |} in
  let s3 := Sample.client [Sample.page [("logs/2020.csv", 10)] None] in
  (_build_batch_kwargs Sample.re_match Sample.clock (λ _ _ _, None)
     Base.yield_batch_kwargs Sample.connector (request VNone) Sample.heap0
     s3).1
  = (inl TypeError, Sample.connector, Sample.heap0, s3)
  ∧ (_build_batch_kwargs Sample.re_match Sample.clock
       Sample.process_batch_definition Base.yield_batch_kwargs
       Sample.connector (request (VInt 5)) Sample.heap0 s3).1
    = (inl TypeError, Sample.connector, Sample.heap0, s3)
  ∧ (_build_batch_kwargs Sample.re_match Sample.clock
       Sample.process_batch_definition Base.yield_batch_kwargs
       Sample.connector (request VNone) Sample.heap0 s3).1.1.1.1
    = inr (Yielded ∅).
Proof.
  intros request s3. split; [|split].
  - by apply (request_without_partition_id Sample.re_match Sample.clock
                (λ _ _ _, None) Base.yield_batch_kwargs Sample.connector
                (request VNone) Sample.heap0 s3 "files").
  - apply (request_without_partition_id Sample.re_match Sample.clock
             Sample.process_batch_definition Base.yield_batch_kwargs
             Sample.connector (request (VInt 5)) Sample.heap0 s3 "files")
      with (batch_kwargs := {["limit" := VInt 5]}) (key := "limit").
    + reflexivity.
    + reflexivity.
    + reflexivity.
    + by eexists.
    + right. vm_compute. reflexivity.
  - apply (request_without_partition_id Sample.re_match Sample.clock
             Sample.process_batch_definition Base.yield_batch_kwargs
             Sample.connector (request VNone) Sample.heap0 s3 "files")
      with (batch_kwargs := ∅).
    + reflexivity.
    + reflexivity.
    + reflexivity.
    + reflexivity.
    + intros key _. apply lookup_empty.
Defined.

(** ** The scan when the engine answers [None] *)

Lemma scan_raises_at_first_match
    (re_match : string -> string -> option match_object)
    (clock : nat -> string)
    (self : S3GlobReaderDataConnector) (asset_config : AssetConfig.t)
    (partition_id : string) (reader_options : option pydict)
    (before after : list string) (key : string) (h : heap) :
  (∀ i key', before !! i = Some key' ->
             ¬ resolves_to re_match clock asset_config partition_id
                 (0 + i) key') ->
  resolves_to re_match clock asset_config partition_id
    (0 + length before) key ->
  for_keys
    (scan_body re_match clock self asset_config partition_id reader_options)
    (before ++ key :: after) (h, None, O)
  = (Some (AttributeError "'NoneType' object has no attribute 'get'"),
     (h, None, S (0 + length before))).
Proof.
  intros Hbefore Hkey.
  rewrite for_keys_app, scan_skips by exact Hbefore.
  cbn [for_keys]. unfold scan_body. by rewrite decide_True.
Qed.

(** X13. When the engine answers [None] to a request for a partition id, the
    scan raises [AttributeError] at the first key that resolves to the
    requested id: no descriptor is built, the heap is as it was, and the
    attribute [batch_kwargs] of the connector is not assigned. *)
Theorem scan_needs_a_mapping_from_the_engine
    (re_match : string -> string -> option match_object)
    (clock : nat -> string)
    (process_batch_definition :
       option string -> pydict -> pyval -> option pydict)
    (yield_batch_kwargs : inherited_method)
    (self : S3GlobReaderDataConnector)
    (batch_parameters : BatchParameters.t) (h : heap)
    (data_asset_name partition_id : string) (asset_config : AssetConfig.t)
    (pages : list list_objects_v2_response)
    (last : list_objects_v2_response)
    (log : list (query_options * option list_objects_v2_response))
    (before after : list string) (key : string) :
  BatchParameters.data_asset_name batch_parameters = Some data_asset_name ->
  BatchParameters.partition_id batch_parameters = Some partition_id ->
  partition_id ≠ "" ->
  _assets self !! data_asset_name = Some asset_config ->
  processed_batch_definition process_batch_definition self batch_parameters h
  = None ->
  Forall (λ p, truncated_with_token p
               ∧ has_required_collection asset_config p) pages ->
  IsTruncated last = false ->
  has_required_collection asset_config last ->
  concat (yields_of re_match asset_config <$> (pages ++ [last]))
  = before ++ key :: after ->
  (∀ i key', before !! i = Some key' ->
             ¬ resolves_to re_match clock asset_config partition_id i key') ->
  resolves_to re_match clock asset_config partition_id (length before) key ->
  let result :=
    _build_batch_kwargs re_match clock process_batch_definition
      yield_batch_kwargs self batch_parameters h
      {| pending := pages ++ [last]; calls := log |} in
  result.1.1.1.1
  = inl (AttributeError "'NoneType' object has no attribute 'get'")
  ∧ result.1.1.2 = h
  ∧ batch_kwargs_attr result.1.1.1.2 = batch_kwargs_attr self.
Proof.
  intros Hname Hid Hgiven Hasset Hengine Hpages Hlast Hshape Hkeys Hbefore
    Hkey.
  pose proof (for_get_asset_options_flat re_match self asset_config
                (scan_body re_match clock self asset_config partition_id
                   (BatchParameters.reader_options batch_parameters))
                pages last
                (default ∅ (_iterators self !! data_asset_name)) log
                (h, None, O) Hpages Hlast Hshape) as Hflat.
  rewrite Hkeys, (scan_raises_at_first_match _ _ _ _ _ _ _ _ _ _ Hbefore Hkey)
    in Hflat.
  cbv zeta. unfold _build_batch_kwargs.
  change (processed_batch_definition process_batch_definition self
            (popped batch_parameters) h)
    with (processed_batch_definition process_batch_definition self
            batch_parameters h).
  change (BatchParameters.reader_options (popped batch_parameters))
    with (BatchParameters.reader_options batch_parameters).
  rewrite Hname, Hid, Hengine, Hasset.
  replace (truthy (VStr partition_id)) with true
    by (symmetry; cbn; by apply negb_true_iff, String.eqb_neq).
  cbn [pending calls].
  destruct (for_get_asset_options _ _ _ _ _ _ _ _)
    as [[[e [[h' found] n]] iterator_dict'] s3'].
  cbn [fst snd] in Hflat. by injection Hflat as -> -> -> _.
Qed.

Lemma scan_needs_a_mapping_from_the_engine_witness :
  let request :=
    {| BatchParameters.data_asset_name := Some "files";
       BatchParameters.partition_id := Some "2020.csv";
       BatchParameters.reader_method := None;
       BatchParameters.reader_options := None;
       BatchParameters.limit := VNone |} in
  let result :=
    _build_batch_kwargs Sample.re_match Sample.clock (λ _ _ _, None)
      Base.yield_batch_kwargs Sample.connector request Sample.heap0
      (Sample.client [Sample.page [("logs/2019.csv", 1);
                                   ("logs/2020.csv", 1)] None]) in
  result.1.1.1.1
  = inl (AttributeError "'NoneType' object has no attribute 'get'")
  ∧ result.1.1.2 = Sample.heap0
  ∧ batch_kwargs_attr result.1.1.1.2 = None.
Proof.
  intros request result.
  apply (scan_needs_a_mapping_from_the_engine Sample.re_match Sample.clock
           (λ _ _ _, None) Base.yield_batch_kwargs Sample.connector request
           Sample.heap0
           "files" "2020.csv" Sample.files []
           (Sample.page [("logs/2019.csv", 1); ("logs/2020.csv", 1)] None)
           [] ["logs/2019.csv"] [] "logs/2020.csv").
  - reflexivity.
  - reflexivity.
  - discriminate.
  - reflexivity.
  - reflexivity.
  - constructor.
  - reflexivity.
  - by eexists.
  - reflexivity.
  - intros [|i] key' Hi; [|discriminate Hi].
    injection Hi as <-. discriminate.
  - reflexivity.
Defined.

(** ** The partition ids of an asset *)

Lemma for_keys_collect_partition_id
    (re_match : string -> string -> option match_object)
    (clock : nat -> string) (asset_config : AssetConfig.t)
    (keys : list string) (ids : list pyval) (n : nat) :
  for_keys (collect_partition_id re_match clock asset_config) keys (ids, n)
  = (None,
     (ids ++ imap (λ i key,
                     _partitioner re_match (clock (n + i)%nat) key
                       asset_config) keys,
      (n + length keys)%nat)).
Proof.
  revert ids n. induction keys as [|key keys IH]; intros ids n.
  - cbn. by rewrite app_nil_r, Nat.add_0_r.
  - cbn [for_keys]. unfold collect_partition_id at 1. cbn [fst snd].
    rewrite IH, <- app_assoc. cbn [imap length app].
    rewrite Nat.add_0_r, Nat.add_succ_r. do 4 f_equal.
    apply imap_ext. intros i key' _. cbn. by rewrite Nat.add_succ_r.
Qed.

Lemma given_name (name : string) : name ≠ "" -> given (Some name) = true.
Proof. intros Hname. cbn. by apply negb_true_iff, String.eqb_neq. Qed.

Lemma assets_set_iterator (self : S3GlobReaderDataConnector) (name : string)
    (d : gmap string string) :
  _assets (set_iterator self name d) = _assets self.
Proof. reflexivity. Qed.

Lemma get_available_partition_ids_complete
    (re_match : string -> string -> option match_object)
    (clock : nat -> string) (self : S3GlobReaderDataConnector)
    (data_asset_name : string) (asset_config : AssetConfig.t)
    (pages : list list_objects_v2_response)
    (last : list_objects_v2_response)
    (log : list (query_options * option list_objects_v2_response)) :
  data_asset_name ≠ "" ->
  _assets self !! data_asset_name = Some asset_config ->
  Forall (λ p, truncated_with_token p
               ∧ has_required_collection asset_config p) pages ->
  IsTruncated last = false ->
  has_required_collection asset_config last ->
  ∃ s3',
    get_available_partition_ids re_match clock self None
      (Some data_asset_name) {| pending := pages ++ [last]; calls := log |}
    = (inr (imap (λ i key,
                    _partitioner re_match (clock i) key asset_config)
              (concat (yields_of re_match asset_config
                       <$> (pages ++ [last])))),
       set_iterator
         (set_iterator self data_asset_name
            (default ∅ (_iterators self !! data_asset_name)))
         data_asset_name
         (delete token_key (default ∅ (_iterators self !! data_asset_name))),
       s3', [])
    ∧ pending s3' = [].
Proof.
  intros Hname Hasset Hpages Hlast Hshape.
  destruct (for_get_asset_options_complete re_match
              (set_iterator self data_asset_name
                 (default ∅ (_iterators self !! data_asset_name)))
              asset_config
              (collect_partition_id re_match clock asset_config)
              pages last (default ∅ (_iterators self !! data_asset_name))
              log ([], O) _ Hpages Hlast Hshape
              (for_keys_collect_partition_id _ _ _ _ _ _))
    as (queries & Hrun & _ & _).
  unfold get_available_partition_ids.
  rewrite (given_name _ Hname). cbn [given andb orb negb].
  change (get (Some data_asset_name) "") with data_asset_name.
  rewrite assets_set_iterator, Hasset.
  cbn [pending calls]. rewrite Hrun.
  eexists. split; reflexivity.
Qed.

(** Asking through [generator_asset] does what asking through
    [data_asset_name] does, and warns once. *)
Lemma generator_asset_alias
    (re_match : string -> string -> option match_object)
    (clock : nat -> string) (self : S3GlobReaderDataConnector)
    (name : string) (s3 : s3_client) :
  name ≠ "" ->
  ∃ warning,
    get_available_partition_ids re_match clock self (Some name) None s3
    = ((get_available_partition_ids re_match clock self None (Some name)
          s3).1,
       [warning]).
Proof.
  intros Hname. eexists. unfold get_available_partition_ids.
  rewrite (given_name _ Hname). cbn [given andb orb negb].
  change (get (Some name) "") with name.
  destruct (_assets _ !! name); [|reflexivity].
  destruct (for_get_asset_options _ _ _ _ _ _ _ _)
    as [[[[e|] [ids n]] iterator_dict'] s3'']; reflexivity.
Qed.

(** X14. The partition ids of a registered asset, over a listing of
    truncated pages ended by an untruncated one: one id for each surviving
    key, in the order of the listing and with repetitions kept, each the
    partition id of its key; every page was asked for, the state of the asset
    is left without a continuation token and no warning is issued.  Asked
    through the old argument [generator_asset], the ids are the same and one
    warning is issued. *)
Theorem partition_ids_follow_the_listing
    (re_match : string -> string -> option match_object)
    (clock : nat -> string) (self : S3GlobReaderDataConnector)
    (data_asset_name : string) (asset_config : AssetConfig.t)
    (pages : list list_objects_v2_response)
    (last : list_objects_v2_response)
    (log : list (query_options * option list_objects_v2_response)) :
  data_asset_name ≠ "" ->
  _assets self !! data_asset_name = Some asset_config ->
  Forall (λ p, truncated_with_token p
               ∧ has_required_collection asset_config p) pages ->
  IsTruncated last = false ->
  has_required_collection asset_config last ->
  let keys :=
    concat (yields_of re_match asset_config <$> (pages ++ [last])) in
  let s3 := {| pending := pages ++ [last]; calls := log |} in
  ∃ ids self' s3' warning,
    get_available_partition_ids re_match clock self None
      (Some data_asset_name) s3
    = (inr ids, self', s3', [])
    ∧ get_available_partition_ids re_match clock self
        (Some data_asset_name) None s3
      = (inr ids, self', s3', [warning])
    ∧ length ids = length keys
    ∧ (∀ i key, keys !! i = Some key ->
                ids !! i
                = Some (_partitioner re_match (clock i) key asset_config))
    ∧ pending s3' = []
    ∧ ∃ iterator_dict,
        _iterators self' !! data_asset_name = Some iterator_dict
        ∧ iterator_dict !! token_key = None.
Proof.
  intros Hname Hasset Hpages Hlast Hshape keys s3.
  destruct (get_available_partition_ids_complete re_match clock self
              data_asset_name asset_config pages last log Hname Hasset
              Hpages Hlast Hshape) as (s3' & Hrun & Hpending).
  destruct (generator_asset_alias re_match clock self data_asset_name s3
              Hname) as (warning & Halias).
  eexists _, _, s3', warning.
  split; [exact Hrun|]. split; [|split; [|split]].
  - rewrite Halias. unfold s3. by rewrite Hrun.
  - by rewrite length_imap.
  - intros i key Hkey. unfold keys in Hkey.
    by rewrite list_lookup_imap, Hkey.
  - split; [exact Hpending|].
    eexists. cbn. rewrite lookup_insert_eq. split; [reflexivity|].
    apply lookup_delete_eq.
Qed.

Lemma partition_ids_follow_the_listing_witness :
  ∃ self' s3',
    get_available_partition_ids Sample.re_match Sample.clock
      Sample.connector None (Some "by_year")
      (Sample.client [Sample.page [("logs/2020.csv", 10)] (Some "t1");
                      Sample.page [("logs/2020.csv.bak", 4);
                                   ("logs/readme", 1)] None])
    = (inr [VStr "2020"; VStr "2020";
            VStr "20201103T101500.000000Z__unmatched"], self', s3', []).
Proof.
  destruct (partition_ids_follow_the_listing Sample.re_match Sample.clock
              Sample.connector "by_year" Sample.by_year
              [Sample.page [("logs/2020.csv", 10)] (Some "t1")]
              (Sample.page [("logs/2020.csv.bak", 4); ("logs/readme", 1)]
                 None) [])
    as (ids & self' & s3' & warning & Hrun & _ & Hlen & Hids & _).
  - discriminate.
  - reflexivity.
  - constructor; [|constructor].
    split; [split; [reflexivity | by eexists] | by eexists].
  - reflexivity.
  - by eexists.
  - exists self', s3'.
    pose proof (Hids 0%nat _ eq_refl) as H0.
    pose proof (Hids 1%nat _ eq_refl) as H1.
    pose proof (Hids 2%nat _ eq_refl) as H2.
    destruct ids as [|id0 [|id1 [|id2 [|id3 ids]]]]; try discriminate Hlen.
    injection H0 as ->. injection H1 as ->. injection H2 as ->.
    exact Hrun.
Defined.

(** X15. [get_available_partition_ids] wants one of its two arguments and
    not both: otherwise the assertion fails and nothing is done.  For a name
    that is not registered it raises [KeyError] without a listing call, but
    by then it has given that name a listing state, which it leaves in the
    connector. *)
Theorem partition_ids_of_no_asset
    (re_match : string -> string -> option match_object)
    (clock : nat -> string) (self : S3GlobReaderDataConnector)
    (generator_asset data_asset_name : option string) (s3 : s3_client) :
  (given generator_asset = given data_asset_name ->
   ∃ message,
     get_available_partition_ids re_match clock self generator_asset
       data_asset_name s3
     = (inl (AssertionError message), self, s3, []))
  ∧ (∀ name,
       generator_asset = None -> data_asset_name = Some name ->
       name ≠ "" -> _assets self !! name = None ->
       ∃ self',
         get_available_partition_ids re_match clock self generator_asset
           data_asset_name s3
         = (inl (Propagated (KeyError name)), self', s3, [])
         ∧ _iterators self' !! name
           = Some (default ∅ (_iterators self !! name))
         ∧ _assets self' = _assets self).
Proof.
  split.
  - intros Hsame. unfold get_available_partition_ids. rewrite Hsame.
    destruct (given data_asset_name); by eexists.
  - intros name -> -> Hname Hasset. unfold get_available_partition_ids.
    rewrite (given_name _ Hname). cbn [given andb orb negb].
    change (get (Some name) "") with name.
    rewrite assets_set_iterator, Hasset.
    eexists. split; [reflexivity|]. cbn. by rewrite lookup_insert_eq.
Qed.

Lemma partition_ids_of_no_asset_witness :
  (∃ message,
      get_available_partition_ids Sample.re_match Sample.clock
        Sample.connector (Some "files") (Some "files") (Sample.client [])
      = (inl (AssertionError message), Sample.connector, Sample.client [], []))
  ∧ ∃ self',
      get_available_partition_ids Sample.re_match Sample.clock
        Sample.connector None (Some "nowhere") (Sample.client [])
      = (inl (Propagated (KeyError "nowhere")), self', Sample.client [], [])
      ∧ _iterators self' !! "nowhere" = Some ∅.
Proof.
  split.
  - apply (partition_ids_of_no_asset Sample.re_match Sample.clock
             Sample.connector (Some "files") (Some "files")
             (Sample.client [])).
    reflexivity.
  - destruct (proj2 (partition_ids_of_no_asset Sample.re_match Sample.clock
                       Sample.connector None (Some "nowhere")
                       (Sample.client []))
                "nowhere" eq_refl eq_refl ltac:(discriminate) eq_refl)
      as (self' & Hrun & Hiterators & _).
    by exists self'.
Defined.

(** ** From a listed partition id to its descriptor *)

Lemma last_match_split (P : nat -> string -> Prop)
    `{∀ n key, Decision (P n key)} (keys : list string) :
  (∃ i key, keys !! i = Some key ∧ P i key) ->
  ∃ before key after,
    keys = before ++ key :: after
    ∧ P (length before) key
    ∧ ∀ i key', after !! i = Some key' -> ¬ P (S (length before) + i)%nat key'.
Proof.
  induction keys as [|k keys IH] using rev_ind.
  - by intros (i & key & Hi & _).
  - intros (i & key & Hi & HP).
    destruct (decide (P (length keys) k)) as [Hk|Hk].
    + exists keys, k, []. split; [done|]. split; [done|]. by intros j key' Hj.
    + destruct (decide (i < length keys)%nat) as [Hlt|Hge].
      * rewrite lookup_app_l in Hi by exact Hlt.
        destruct IH as (before & key0 & after & -> & Hkey0 & Hafter);
          [by exists i, key|].
        exists before, key0, (after ++ [k]).
        split; [by rewrite <- app_assoc|]. split; [exact Hkey0|].
        intros j key' Hj.
        destruct (decide (j < length after)%nat) as [Hj'|Hj'].
        -- rewrite lookup_app_l in Hj by exact Hj'. by apply Hafter.
        -- rewrite lookup_app_r in Hj by lia.
           destruct (j - length after)%nat as [|m] eqn:Hm; [|done].
           injection Hj as <-.
           replace (S (length before) + j)%nat
             with (length (before ++ key0 :: after)); [exact Hk|].
           rewrite length_app. cbn. lia.
      * rewrite lookup_app_r in Hi by lia.
        destruct (i - length keys)%nat as [|m] eqn:Hm; [|done].
        injection Hi as <-.
        replace i with (length keys) in HP by lia. done.
Qed.

Lemma partitioner_off_clock
    (re_match : string -> string -> option match_object)
    (asset_config : AssetConfig.t) (key now1 now2 : string) :
  resolves_off_clock re_match asset_config key ->
  _partitioner re_match now1 key asset_config
  = _partitioner re_match now2 key asset_config.
Proof.
  unfold resolves_off_clock, _partitioner.
  destruct (AssetConfig.partition_regex asset_config) as [pattern|]; [|done].
  intros (matches & -> & [v ->]). done.
Qed.

(** X16. A partition id that [get_available_partition_ids] lists can be
    asked for when it is a string, not [None], and not the empty string, and
    the key it is listed for resolves without the clock: over the same
    listing, with an engine that answers with a mapping, a request for that
    id returns a descriptor, and the descriptor is for a key of the listing
    that resolves to the id. *)
Theorem listed_partition_id_can_be_built
    (re_match : string -> string -> option match_object)
    (clock clock' : nat -> string)
    (process_batch_definition :
       option string -> pydict -> pyval -> option pydict)
    (yield_batch_kwargs : inherited_method)
    (self : S3GlobReaderDataConnector)
    (batch_parameters : BatchParameters.t) (h : heap)
    (data_asset_name partition_id : string) (asset_config : AssetConfig.t)
    (pages : list list_objects_v2_response)
    (last : list_objects_v2_response)
    (ids : list pyval) (self1 : S3GlobReaderDataConnector)
    (s3_1 : s3_client) (warnings : list string) (i : nat) (key : string) :
  data_asset_name ≠ "" ->
  _assets self !! data_asset_name = Some asset_config ->
  Forall (λ p, truncated_with_token p
               ∧ has_required_collection asset_config p) pages ->
  IsTruncated last = false ->
  has_required_collection asset_config last ->
  get_available_partition_ids re_match clock self None (Some data_asset_name)
    {| pending := pages ++ [last]; calls := [] |}
  = (inr ids, self1, s3_1, warnings) ->
  ids !! i = Some (VStr partition_id) ->
  partition_id ≠ "" ->
  concat (yields_of re_match asset_config <$> (pages ++ [last])) !! i
  = Some key ->
  resolves_off_clock re_match asset_config key ->
  BatchParameters.data_asset_name batch_parameters = Some data_asset_name ->
  BatchParameters.partition_id batch_parameters = Some partition_id ->
  is_Some (processed_batch_definition process_batch_definition self1
             batch_parameters h) ->
  ∃ bk j key',
    (_build_batch_kwargs re_match clock' process_batch_definition
       yield_batch_kwargs self1 batch_parameters h
       {| pending := pages ++ [last]; calls := calls s3_1 |}).1.1.1.1
    = inr (Descriptor bk)
    ∧ concat (yields_of re_match asset_config <$> (pages ++ [last])) !! j
      = Some key'
    ∧ resolves_to re_match clock' asset_config partition_id j key'
    ∧ bk !! "s3" = Some (s3_uri self key').
Proof.
  intros Hname Hasset Hpages Hlast Hshape Hids Hid Hgiven Hkey Hoff
    Hbp_name Hbp_id [d Hengine].
  destruct (get_available_partition_ids_complete re_match clock self
              data_asset_name asset_config pages last [] Hname Hasset
              Hpages Hlast Hshape) as (s3' & Hrun & _).
  rewrite Hrun in Hids. injection Hids as <- <- <- <-.
  rewrite list_lookup_imap, Hkey in Hid. injection Hid as Hid.
  assert (Hmatch : resolves_to re_match clock' asset_config partition_id
                     i key).
  { unfold resolves_to. rewrite <- Hid. by apply partitioner_off_clock. }
  destruct (last_match_split
              (resolves_to re_match clock' asset_config partition_id)
              (concat (yields_of re_match asset_config <$> (pages ++ [last]))))
    as (before & key' & after & Hkeys & Hkey' & Hafter);
    [by exists i, key|].
  destruct (scan_last_match re_match clock'
              (set_iterator
                 (set_iterator self data_asset_name
                    (default ∅ (_iterators self !! data_asset_name)))
                 data_asset_name
                 (delete token_key
                    (default ∅ (_iterators self !! data_asset_name))))
              asset_config partition_id
              (BatchParameters.reader_options batch_parameters)
              before after key' h d O Hkey' Hafter) as (h' & Hscan).
  rewrite <- Hkeys in Hscan.
  destruct (build_batch_kwargs_scan re_match clock' process_batch_definition
              yield_batch_kwargs
              (set_iterator
                 (set_iterator self data_asset_name
                    (default ∅ (_iterators self !! data_asset_name)))
                 data_asset_name
                 (delete token_key
                    (default ∅ (_iterators self !! data_asset_name))))
              batch_parameters h data_asset_name partition_id asset_config
              pages last (calls s3') Hbp_name Hbp_id Hgiven Hasset Hpages
              Hlast Hshape (Some d) h' (Some _) _ Hengine Hscan)
    as (self' & s3'' & Hbuild & _).
  eexists _, (length before), key'. rewrite Hbuild.
  split; [reflexivity|]. split; [|split; [exact Hkey'|]].
  - rewrite Hkeys. by rewrite list_lookup_middle.
  - apply built_s3.
Qed.

Lemma listed_partition_id_can_be_built_witness :
  let first := Sample.page [("logs/2020.csv", 10)] (Some "t1") in
  let second :=
    Sample.page [("logs/2020.csv.bak", 4); ("logs/readme", 1)] None in
  let listed :=
    get_available_partition_ids Sample.re_match Sample.clock
      Sample.connector None (Some "by_year") (Sample.client [first; second]) in
  let request :=
    {| BatchParameters.data_asset_name := Some "by_year";
       BatchParameters.partition_id := Some "2020";
       BatchParameters.reader_method := None;
       BatchParameters.reader_options := None;
       BatchParameters.limit := VNone |} in
  ∃ bk j key',
    (_build_batch_kwargs Sample.re_match (λ _, "later")
       Sample.process_batch_definition Base.yield_batch_kwargs listed.1.1.2
       request Sample.heap0
       {| pending := [first; second]; calls := calls listed.1.2 |}).1.1.1.1
    = inr (Descriptor bk)
    ∧ ["logs/2020.csv"; "logs/2020.csv.bak"; "logs/readme"] !! j = Some key'
    ∧ resolves_to Sample.re_match (λ _, "later") Sample.by_year "2020" j key'
    ∧ bk !! "s3" = Some (s3_uri Sample.connector key').
Proof.
  intros first second listed request.
  apply (listed_partition_id_can_be_built Sample.re_match Sample.clock
           (λ _, "later") Sample.process_batch_definition
           Base.yield_batch_kwargs Sample.connector request Sample.heap0 "by_year" "2020" Sample.by_year
           [first] second
           [VStr "2020"; VStr "2020";
            VStr "20201103T101500.000000Z__unmatched"]
           listed.1.1.2 listed.1.2 [] 0%nat "logs/2020.csv").
  - discriminate.
  - reflexivity.
  - constructor; [|constructor].
    split; [split; [reflexivity | by eexists] | by eexists].
  - reflexivity.
  - by eexists.
  - reflexivity.
  - reflexivity.
  - discriminate.
  - reflexivity.
  - eexists. split; [reflexivity|]. by eexists.
  - reflexivity.
  - reflexivity.
  - by eexists.
Defined.

(** ** The registry and the constructor *)

(** X17. The names [get_available_data_asset_names] gives are the names of
    the registered assets, each of them once and each with the kind [file],
    assets with [directory_assets] included. *)
Theorem asset_names_are_the_registry (self : S3GlobReaderDataConnector) :
  (∀ name kind,
      (name, kind) ∈ get_available_data_asset_names self
      ↔ kind = "file" ∧ is_Some (_assets self !! name))
  ∧ length (get_available_data_asset_names self) = size (_assets self)
  ∧ NoDup (get_available_data_asset_names self).
Proof.
  unfold get_available_data_asset_names. split; [|split].
  - intros name kind. rewrite list_elem_of_fmap. split.
    + intros ([name' asset_config] & [= -> ->] & Hin).
      apply elem_of_map_to_list in Hin. by split; [|eexists].
    + intros [-> [asset_config Hasset]].
      exists (name, asset_config). split; [done|].
      by apply elem_of_map_to_list.
  - by rewrite length_fmap, length_map_to_list.
  - apply (NoDup_fmap_1 fst). rewrite <- list_fmap_compose.
    apply NoDup_fst_map_to_list.
Qed.

Lemma asset_names_are_the_registry_witness :
  ("files", "file") ∈ get_available_data_asset_names Sample.connector
  ∧ length (get_available_data_asset_names Sample.connector) = 3%nat.
Proof.
  destruct (asset_names_are_the_registry Sample.connector)
    as (Hnames & Hlength & _).
  split.
  - apply Hnames. split; [reflexivity|]. by eexists.
  - rewrite Hlength. reflexivity.
Defined.

(** X18. A connector made without [reader_options] gets a dict of its own,
    new and empty, the rest of the heap being kept; two connectors made so
    do not share it: building descriptors with the first, whatever the
    options of the asset and of the call, leaves the reader options of the
    second empty. *)
Theorem init_reader_options_are_not_shared
    (h : heap) (bucket1 bucket2 : string)
    (assets1 assets2 : option (gmap string AssetConfig.t))
    (delimiter1 delimiter2 reader_method1 reader_method2 : option string)
    (max_keys1 max_keys2 : option Z) (client1 client2 : s3_client)
    (self1 self2 : S3GlobReaderDataConnector) (h1 h2 : heap)
    (s3_1 s3_2 : s3_client) :
  __init__ h bucket1 None assets1 delimiter1 reader_method1 max_keys1
    (Some client1)
  = inr (self1, h1, s3_1) ->
  __init__ h1 bucket2 None assets2 delimiter2 reader_method2 max_keys2
    (Some client2)
  = inr (self2, h2, s3_2) ->
  h !! _reader_options self1 = None
  ∧ h1 = <[_reader_options self1 := ∅]> h
  ∧ _reader_options self1 ≠ _reader_options self2
  ∧ ∀ key asset_config reader_method reader_options limit,
      deref
        (_build_batch_kwargs_from_key self1 h2 key asset_config
           reader_method reader_options limit).2
        (_reader_options self2)
      = ∅.
Proof.
  unfold __init__. intros [= <- <- <-] [= <- <- <-]. cbn [_reader_options].
  assert (Hfresh : h !! fresh (dom h) = None)
    by (apply not_elem_of_dom, is_fresh).
  assert (Hne : fresh (dom h) ≠ fresh (dom (<[fresh (dom h) := ∅]> h))).
  { intros Heq.
    apply (is_fresh (dom (<[fresh (dom h) := (∅ : pydict)]> h))).
    rewrite <- Heq, dom_insert_L. set_solver. }
  split; [exact Hfresh|]. split; [reflexivity|]. split; [exact Hne|].
  intros key asset_config reader_method reader_options limit.
  unfold deref. rewrite built_heap_elsewhere by (cbn; congruence).
  by rewrite lookup_insert_eq.
Qed.

Lemma init_reader_options_are_not_shared_witness :
  ∃ self1 self2 h2,
    _reader_options self1 ≠ _reader_options self2
    ∧ deref
        (_build_batch_kwargs_from_key self1 h2 "access_logs/1.csv"
           Sample.tilde_separated None None VNone).2
        (_reader_options self2)
      = ∅.
Proof.
  destruct (init_reader_options_are_not_shared ∅ "one" "two" None None
              None None None None None None (Sample.client [])
              (Sample.client []) _ _ _ _ _ _ eq_refl eq_refl)
    as (_ & _ & Hne & Hbuild).
  eexists _, _, _. split; [exact Hne|]. apply Hbuild.
Defined.

(** X19. A connector made without [assets] has the one asset [default]; for
    that asset the partition id of a key is the key itself, and the listing
    calls are made for the whole bucket, with the delimiter and the page size
    given to the constructor ([/] and 1000 when they are left out) and
    without a continuation token at first.  When the client cannot be made,
    no connector is. *)
Theorem init_defaults
    (re_match : string -> string -> option match_object)
    (h : heap) (bucket : string) (reader_options : option loc)
    (delimiter reader_method : option string) (max_keys : option Z)
    (client : s3_client) :
  (∀ assets,
      ∃ message,
        __init__ h bucket reader_options assets delimiter reader_method
          max_keys None
        = inl (ImportError message))
  ∧ ∃ self h' asset_config,
      __init__ h bucket reader_options None delimiter reader_method max_keys
        (Some client)
      = inr (self, h', client)
      ∧ get_available_data_asset_names self = [("default", "file")]
      ∧ _assets self !! "default" = Some asset_config
      ∧ (∀ now key,
           _partitioner re_match now key asset_config = VStr key)
      ∧ (∀ name,
           build_query_options self asset_config
             (default ∅ (_iterators self !! name))
           = {| Bucket := bucket;
                Delimiter := match delimiter with Some d => d | None => "/" end;
                Prefix := Some "";
                MaxKeys := match max_keys with Some n => n | None => 1000 end;
                ContinuationToken := None |}).
Proof.
  split.
  - intros assets. unfold __init__.
    destruct reader_options; by eexists.
  - unfold __init__.
    destruct reader_options as [l|]; eexists _, _, _;
      (split; [reflexivity|]);
      (split; [unfold get_available_data_asset_names; cbn [_assets get default];
               unfold default_assets; by rewrite map_to_list_singleton|]);
      (split; [reflexivity|]);
      (split; [intros now key; unfold _partitioner; cbn;
               by destruct key|]);
      intros name; unfold build_query_options; cbn;
      rewrite lookup_empty; cbn; by destruct delimiter, max_keys.
Qed.
